(** * apple-card-csv: statement layout reconstruction and transaction parsing

    A shallow embedding of [lib/reverse.js], [lib/parse.js] and [lib/main.js]
    and the properties of the statement parser that follow from the code.

    Conventions of the embedding:
    - JavaScript values that the parser stores in records are [jsval]s;
    - a JavaScript object used as a map is a [jsobj]: its own properties in
      the order [Object.keys]/[Object.values] enumerate them;
    - a synchronous function that can throw returns a [result];
    - an [async] function is a computation in the [Async] monad, which
      threads the log of calls made to the PDF engine and stops at the first
      rejection;
    - [Date.parse] is a built-in of the host: it is a parameter of the
      development ([Section Parser]). *)

From Stdlib Require Import ZArith QArith Qround String Ascii Lia.
From Stdlib Require Import Sorted Permutation.
From Stdlib Require Import Lqa.
From stdpp Require Import base list.

Local Open Scope string_scope.
Local Open Scope list_scope.
Local Open Scope nat_scope.

(** ** JavaScript values *)

Inductive jsval : Type :=
  | JUndefined
  | JNull
  | JBool (b : bool)
  | JString (s : string).

(** A Number as [Date.parse] returns it: an integral time value, or NaN. *)
Inductive jsnum : Type :=
  | NaN
  | Num (z : Z).

Inductive exn : Type :=
  | TypeError (msg : string)
  | Error (msg : string).

Inductive result (A : Type) : Type :=
  | Ok (a : A)
  | Throw (e : exn).
Arguments Ok {A} a.
Arguments Throw {A} e.

(** ToBoolean *)
Definition truthy (v : jsval) : bool :=
  match v with
  | JUndefined | JNull => false
  | JBool b => b
  | JString s => negb (String.eqb s "")
  end.

(** [a || b] *)
Definition js_or (a b : jsval) : jsval := if truthy a then a else b.

(** [!a] *)
Definition js_not (a : jsval) : jsval := JBool (negb (truthy a)).

(** [a === b] *)
Definition strict_eq (a b : jsval) : bool :=
  match a, b with
  | JUndefined, JUndefined => true
  | JNull, JNull => true
  | JBool x, JBool y => Bool.eqb x y
  | JString x, JString y => String.eqb x y
  | _, _ => false
  end.

(** ToString *)
Definition ToString (v : jsval) : string :=
  match v with
  | JUndefined => "undefined"
  | JNull => "null"
  | JBool true => "true"
  | JBool false => "false"
  | JString s => s
  end.

(** [a + b] where one operand is a string: string concatenation. *)
Definition js_add (a b : jsval) : jsval := JString (ToString a ++ ToString b)%string.

Definition isNaN (n : jsnum) : bool :=
  match n with NaN => true | Num _ => false end.

(** [a - b] on time values. A time value is an integer of magnitude at most
    8.64e15, so the sign of the difference is the sign of the exact
    difference; [Array.prototype.sort] reads nothing else of it. *)
Definition num_sub (a b : jsnum) : jsnum :=
  match a, b with
  | Num x, Num y => Num (x - y)
  | _, _ => NaN
  end.

(** [Math.round] on a finite number: the nearest integer, ties towards
    +infinity. Coordinates are taken as exact rationals. *)
Definition Math_round (q : Q) : Z := Qfloor (q + (1 # 2)).

(** ** Strings: [trim] and [toLowerCase]

    A [string] holds the UTF-8 encoding of the text. [trim] removes the
    white space and the line terminators of the language: U+0009 to U+000D
    and U+0020 (one byte each), U+00A0 (two bytes), U+1680, U+2000 to
    U+200A, U+2028, U+2029, U+202F, U+205F, U+3000 and U+FEFF (three bytes
    each). *)

Definition is_space (c : ascii) : bool :=
  match nat_of_ascii c with
  | 9 | 10 | 11 | 12 | 13 | 32 => true
  | _ => false
  end.

(** U+00A0 *)
Definition is_space2 (c1 c2 : ascii) : bool :=
  (nat_of_ascii c1 =? 194) && (nat_of_ascii c2 =? 160).

Definition is_space3 (c1 c2 c3 : ascii) : bool :=
  let n1 := nat_of_ascii c1 in
  let n2 := nat_of_ascii c2 in
  let n3 := nat_of_ascii c3 in
  (* U+1680 *)
  ((n1 =? 225) && (n2 =? 154) && (n3 =? 128))
  (* U+2000 .. U+200A, U+2028, U+2029, U+202F *)
  || ((n1 =? 226) && (n2 =? 128)
      && (((128 <=? n3) && (n3 <=? 138))
          || (n3 =? 168) || (n3 =? 169) || (n3 =? 175)))
  (* U+205F *)
  || ((n1 =? 226) && (n2 =? 129) && (n3 =? 159))
  (* U+3000 *)
  || ((n1 =? 227) && (n2 =? 128) && (n3 =? 128))
  (* U+FEFF *)
  || ((n1 =? 239) && (n2 =? 187) && (n3 =? 191)).

Fixpoint trimStart (s : string) : string :=
  match s with
  | EmptyString => EmptyString
  | String c1 s1 =>
      if is_space c1 then trimStart s1
      else
        match s1 with
        | EmptyString => s
        | String c2 s2 =>
            if is_space2 c1 c2 then trimStart s2
            else
              match s2 with
              | EmptyString => s
              | String c3 s3 =>
                  if is_space3 c1 c2 c3 then trimStart s3 else s
              end
        end
  end.

(** The text is white space only. *)
Definition all_space (s : string) : bool := String.eqb (trimStart s) "".

Fixpoint trimEnd (s : string) : string :=
  match s with
  | EmptyString => EmptyString
  | String c s' => if all_space s then EmptyString else String c (trimEnd s')
  end.

Definition trim (s : string) : string := trimEnd (trimStart s).

(** [toLowerCase], on the letters A to Z. *)
Definition lower_ascii (c : ascii) : ascii :=
  let n := nat_of_ascii c in
  if (65 <=? n) && (n <=? 90) then ascii_of_nat (n + 32) else c.

Fixpoint toLowerCase (s : string) : string :=
  match s with
  | EmptyString => EmptyString
  | String c s' => String (lower_ascii c) (toLowerCase s')
  end.

(** ** Objects as ordered property lists

    The keys of the objects of [processPageContent] are the results of
    [Math.round]. [Object.keys] and [Object.values] enumerate first the
    array-index keys (0 .. 2^32 - 2) in ascending order, then every other key
    in the order it was created. *)

Definition jsobj (V : Type) : Type := list (Z * V).

Definition is_array_index (k : Z) : bool :=
  ((0 <=? k) && (k <? 2 ^ 32 - 1))%Z.

Fixpoint obj_get {V} (o : jsobj V) (k : Z) : option V :=
  match o with
  | [] => None
  | (k', v) :: o' => if (k' =? k)%Z then Some v else obj_get o' k
  end.

(** Assignment to a property that exists: the value changes, the position
    does not. *)
Fixpoint obj_update {V} (k : Z) (v : V) (o : jsobj V) : jsobj V :=
  match o with
  | [] => []
  | (k', v') :: o' =>
      if (k' =? k)%Z then (k, v) :: o' else (k', v') :: obj_update k v o'
  end.

(** A new array-index key goes after the smaller array-index keys. *)
Fixpoint obj_add_index {V} (k : Z) (v : V) (o : jsobj V) : jsobj V :=
  match o with
  | [] => [(k, v)]
  | (k', v') :: o' =>
      if is_array_index k' && (k' <? k)%Z
      then (k', v') :: obj_add_index k v o'
      else (k, v) :: o
  end.

(** [o[k] = v] *)
Definition obj_set {V} (k : Z) (v : V) (o : jsobj V) : jsobj V :=
  match obj_get o k with
  | Some _ => obj_update k v o
  | None => if is_array_index k then obj_add_index k v o else o ++ [(k, v)]
  end.

Definition Object_keys {V} (o : jsobj V) : list Z := map fst o.
Definition Object_values {V} (o : jsobj V) : list V := map snd o.

(** Every value of the object satisfies [P]. *)
Definition all_values {V} (P : V -> Prop) (o : jsobj V) : Prop :=
  Forall (fun kv => P (snd kv)) o.

(** ** lib/reverse.js *)

(** [[arr[i], arr[j]] = [arr[j], arr[i]]]; [reverse] only swaps cells that
    exist. *)
Definition swap {A} (i j : nat) (arr : list A) : list A :=
  match arr !! i, arr !! j with
  | Some a, Some b => <[j:=a]> (<[i:=b]> arr)
  | _, _ => arr
  end.

(** [n] iterations of the loop body, starting at index [i]. *)
Fixpoint reverse_loop {A} (n i len : nat) (arr : list A) : list A :=
  match n with
  | 0 => arr
  | S n' => reverse_loop n' (S i) len (swap i (len - 1 - i) arr)
  end.

Definition reverse {A} (arr : list A) : list A :=
  let len := length arr in
  let mid := len / 2 in
  reverse_loop mid 0 len arr.

(** ** lib/parse.js: page content *)

(** A text item of a page: [item.str], and [item.transform[4]],
    [item.transform[5]], the translation part of its affine transform. *)
Record Item : Type := {
  str : string;
  transform4 : Q;
  transform5 : Q
}.

Record Content : Type := { items : list Item }.

(** A row: column bucket to text. *)
Definition Row : Type := jsobj string.

(** The body of the grouping loop of [processPageContent]. *)
Definition group_item (o : jsobj Row) (item : Item) : jsobj Row :=
  let s := trim (str item) in
  if String.eqb s "" then o
  else
    let x := Math_round (transform4 item / 5) in
    let y := Math_round (transform5 item) in
    let o1 := match obj_get o y with
              | None => obj_set y [] o
              | Some _ => o
              end in
    match obj_get o1 y with
    | Some r => obj_set y (obj_set x s r) o1
    | None => o1
    end.

Definition group_items (its : list Item) : jsobj Row :=
  fold_left group_item its [].

(** [rows = reverse(Object.values(o))] *)
Definition page_rows (content : Content) : list Row :=
  reverse (Object_values (group_items (items content))).

(** Every cell of the row holds a non-empty text. *)
Definition nonempty_values (v : Row) : Prop := all_values (fun s => s <> "") v.

(** The rows between the three header rows and the two footer rows:
    [rows.length -= 2] and then [rows.splice(0, 3)]. *)
Definition body_rows (content : Content) : list Row :=
  let rows := page_rows content in
  drop 3 (take (length rows - 2) rows).

(** ** lib/parse.js: transactions *)

Record Transaction : Type := {
  Date : jsval;
  Type_ : jsval;
  Description : jsval;
  Daily_Cash_pct : jsval;
  Daily_Cash_usd : jsval;
  Amount : jsval
}.

(** [v[k]] on a row *)
Definition prop (v : Row) (k : Z) : jsval :=
  match obj_get v k with
  | Some s => JString s
  | None => JUndefined
  end.

(** The fallback chains as the design document words them: the first
    non-empty value among the buckets [ks] of a row, in the order of [ks]. *)
Fixpoint first_nonempty (ks : list Z) (v : Row) : option string :=
  match ks with
  | [] => None
  | k :: ks' =>
      match obj_get v k with
      | Some s => if String.eqb s "" then first_nonempty ks' v else Some s
      | None => first_nonempty ks' v
      end
  end.

(** [field] is the first non-empty value among the buckets [ks], and holds
    no text when there is none. *)
Definition picks (ks : list Z) (v : Row) (field : jsval) : Prop :=
  match first_nonempty ks v with
  | Some s => field = JString s
  | None => truthy field = false
  end.

(** Shapes of field values. *)
Definition is_nonempty_string (v : jsval) : bool :=
  match v with
  | JString s => negb (String.eqb s "")
  | _ => false
  end.

Definition is_string_or_null (v : jsval) : bool :=
  match v with
  | JString _ | JNull => true
  | _ => false
  end.

Definition is_text_or_undefined (v : jsval) : bool :=
  match v with
  | JString s => negb (String.eqb s "")
  | JUndefined => true
  | _ => false
  end.

Definition is_text_or_null (v : jsval) : bool :=
  match v with
  | JString s => negb (String.eqb s "")
  | JNull => true
  | _ => false
  end.

(** Non-empty [Date] and [Description]; a string or [null] in the four other
    fields. *)
Definition fields_string_or_null (t : Transaction) : bool :=
  is_nonempty_string (Date t) && is_nonempty_string (Description t)
  && is_string_or_null (Type_ t)
  && is_string_or_null (Daily_Cash_pct t)
  && is_string_or_null (Daily_Cash_usd t)
  && is_string_or_null (Amount t).

(** Non-empty [Date] and [Description]; a non-empty string or [undefined] in
    the daily-cash fields and in [Amount]. *)
Definition fields_text_or_undefined (t : Transaction) : bool :=
  is_nonempty_string (Date t) && is_nonempty_string (Description t)
  && is_text_or_undefined (Daily_Cash_pct t)
  && is_text_or_undefined (Daily_Cash_usd t)
  && is_text_or_undefined (Amount t).

(** Every row with a single column has it in bucket 7. *)
Definition single_columns_in_type_bucket (rows : list Row) : bool :=
  forallb (fun v : Row =>
             negb (length (Object_keys v) =? 1)
             || match obj_get v 7 with Some _ => true | None => false end)
          rows.

(** [statementText?.toLowerCase()], on the first value of a header row. *)
Definition toLowerCase_opt (t : option string) : jsval :=
  match t with
  | Some s => JString (toLowerCase s)
  | None => JUndefined
  end.

(** The accumulators of the row loop. *)
Record LoopState : Type := {
  results : list Transaction;
  row : option Transaction;
  type : jsval
}.

(** The finished and the pending transactions satisfy [P], the current
    type satisfies [T]. *)
Definition state_inv (P : Transaction -> Prop) (T : jsval -> Prop)
    (st : LoopState) : Prop :=
  Forall P (results st) /\ (forall r, row st = Some r -> P r) /\ T (type st).

Definition init_state : LoopState :=
  {| results := []; row := None; type := JNull |}.

(** [if (row) results.push(row)] *)
Definition push_pending (st : LoopState) : list Transaction :=
  match row st with
  | Some r => results st ++ [r]
  | None => results st
  end.

(** [row.Description += '\n' + description] *)
Definition append_description (r : Transaction) (description : jsval) : Transaction :=
  {| Date := Date r;
     Type_ := Type_ r;
     Description := js_add (Description r) (js_add (JString (String "010" "")) description);
     Daily_Cash_pct := Daily_Cash_pct r;
     Daily_Cash_usd := Daily_Cash_usd r;
     Amount := Amount r |}.

(** The branch of the loop body that handles a row. *)
Inductive branch : Type :=
  | TypeMarker
  | MissingDescription
  | Continuation
  | UnparseableDate
  | NewTransaction.

Section Parser.

(** [Date.parse] on strings. *)
Variable Date_parse : string -> jsnum.

(** [Date.parse(v)]: the argument goes through ToString, and the texts of
    [undefined], [null] and the booleans are not dates. *)
Definition Date_parse_js (v : jsval) : jsnum :=
  match v with
  | JString s => Date_parse s
  | _ => NaN
  end.

(** The record of a new-transaction row. *)
Definition new_transaction (type : jsval) (v : Row) : Transaction :=
  {| Date := js_or (prop v 9) (prop v 7);
     Type_ := type;
     Description := prop v 21;
     Daily_Cash_pct := js_or (prop v 85) (prop v 83);
     Daily_Cash_usd := prop v 89;
     Amount := js_or (prop v 111) (js_or (prop v 110) (js_or (prop v 109)
                 (js_or (prop v 108) (prop v 107)))) |}.

(** One iteration of [for (const [index, v] of rows.entries())]. *)
Definition processRow (st : LoopState) (v : Row) : result LoopState :=
  let keys := Object_keys v in
  let dateCheck := Date_parse_js (prop v 7) in
  if isNaN dateCheck && (length keys =? 1) then
    Ok {| results := push_pending st; row := None; type := prop v 7 |}
  else
    let description := prop v 21 in
    if negb (truthy description) then Ok st
    else if length keys =? 1 then
      match row st with
      | Some r =>
          Ok {| results := results st;
                row := Some (append_description r description);
                type := type st |}
      | None => Throw (TypeError "Cannot read properties of null (reading 'Description')")
      end
    else
      let date := js_or (prop v 9) (prop v 7) in
      if isNaN (Date_parse_js date) then Ok st
      else
        Ok {| results := push_pending st;
              row := Some (new_transaction (type st) v);
              type := type st |}.

(** The same conditions, read as a classification of the row. *)
Definition row_branch (v : Row) : branch :=
  let keys := Object_keys v in
  let dateCheck := Date_parse_js (prop v 7) in
  if isNaN dateCheck && (length keys =? 1) then TypeMarker
  else
    let description := prop v 21 in
    if negb (truthy description) then MissingDescription
    else if length keys =? 1 then Continuation
    else
      let date := js_or (prop v 9) (prop v 7) in
      if isNaN (Date_parse_js date) then UnparseableDate
      else NewTransaction.

(** What the loop body does in each branch. *)
Definition run_branch (b : branch) (st : LoopState) (v : Row) : result LoopState :=
  match b with
  | TypeMarker =>
      Ok {| results := push_pending st; row := None; type := prop v 7 |}
  | MissingDescription | UnparseableDate => Ok st
  | Continuation =>
      match row st with
      | Some r =>
          Ok {| results := results st;
                row := Some (append_description r (prop v 21));
                type := type st |}
      | None => Throw (TypeError "Cannot read properties of null (reading 'Description')")
      end
  | NewTransaction =>
      Ok {| results := push_pending st;
            row := Some (new_transaction (type st) v);
            type := type st |}
  end.

Fixpoint process_rows (rows : list Row) (st : LoopState) : result LoopState :=
  match rows with
  | [] => Ok st
  | v :: rows' =>
      match processRow st v with
      | Ok st' => process_rows rows' st'
      | Throw e => Throw e
      end
  end.

(** [Object.values(undefined)] *)
Definition not_an_object : exn :=
  TypeError "Cannot convert undefined or null to object".

Definition processPageContent (content : Content) (pageNum : nat)
  : result (list Transaction) :=
  let rows := page_rows content in
  if length rows <? 3 then Ok []
  else
    (* rows.length -= 2 *)
    let rows := take (length rows - 2) rows in
    (* header = rows.splice(0, 3) *)
    let header := take 3 rows in
    let rows := drop 3 rows in
    match header !! 0 with
    | None => Throw not_an_object
    | Some h0 =>
        let statementText := Object_values h0 !! 0 in
        match header !! 1 with
        | None => Throw not_an_object
        | Some h1 =>
            let customerText := Object_values h1 !! 0 in
            if strict_eq (js_not (toLowerCase_opt statementText))
                 (JString "statement")
            then Ok []
            else if strict_eq (js_not (toLowerCase_opt customerText))
                      (JString "apple card customer")
            then Ok []
            else
              match process_rows rows init_state with
              | Ok st => Ok (push_pending st)
              | Throw e => Throw e
              end
        end
    end.

End Parser.

(** ** The PDF engine and the [Async] monad *)

Record Page : Type := { getTextContent : result Content }.

(** A document handle: [doc.numPages] and [doc.getPage(n)]. *)
Record Doc : Type := {
  numPages : nat;
  getPage : nat -> result Page
}.

(** The argument of the exported [parse]. An array is the list of its
    slots up to its [length]: a slot holds an element, or is a hole. *)
#[warnings="-register-all"]
Inductive jsarg : Type :=
  | Uint8Array (data : list Byte.byte)
  | JsArray (elems : list (option jsarg))
  | Other (v : jsval).

(** [arr[i]]: the element of the slot, [undefined] for a hole. *)
Definition read_slot (e : option jsarg) : jsarg :=
  match e with
  | Some a => a
  | None => Other JUndefined
  end.

(** [arr.every(p)]: the test is called for the elements; holes are
    skipped. *)
Definition every (p : jsarg -> bool) (elems : list (option jsarg)) : bool :=
  forallb (fun e => match e with Some a => p a | None => true end) elems.

(** Calls to the engine, in the order they are awaited. *)
Inductive event : Type :=
  | EvGetDocument (src : jsarg)
  | EvGetPage (n : nat)
  | EvGetTextContent (n : nat).

Definition Async (A : Type) : Type := list event -> list event * result A.

Definition ret {A} (a : A) : Async A := fun log => (log, Ok a).

Definition bind {A B} (m : Async A) (k : A -> Async B) : Async B :=
  fun log =>
    match m log with
    | (log', Ok a) => k a log'
    | (log', Throw e) => (log', Throw e)
    end.

(** A synchronous call inside an async function. *)
Definition lift {A} (r : result A) : Async A := fun log => (log, r).

(** [await] of a call to the engine: the call is made, then its promise
    resolves or rejects. *)
Definition await {A} (ev : event) (r : result A) : Async A :=
  fun log => (log ++ [ev], r).

Notation "'let*' x ':=' m 'in' k" := (bind m (fun x => k))
  (at level 10, x name, m at level 100, k at level 200).

(** pdfjs-dist's document proxy for a file whose pages are [pages], first
    page first: [getPage] takes the page number, and the first page is
    number 1; other numbers are rejected. *)
Definition pdfjs_document (pages : list Content) : Doc :=
  {| numPages := length pages;
     getPage n :=
       match n with
       | 0 => Throw (Error "Invalid page request.")
       | S k =>
           match pages !! k with
           | Some c => Ok {| getTextContent := Ok c |}
           | None => Throw (Error "Invalid page request.")
           end
       end |}.

(** ** [Array.prototype.sort]

    The sort of the standard library is stable; with a comparator that is
    consistent the result is the one of a stable insertion sort. A NaN from
    the comparator counts as +0. *)

Definition SortCompare {A} (comparefn : A -> A -> jsnum) (x y : A) : Z :=
  match comparefn x y with
  | NaN => 0%Z
  | Num v => v
  end.

Fixpoint sort_insert {A} (comparefn : A -> A -> jsnum) (x : A) (l : list A) : list A :=
  match l with
  | [] => [x]
  | y :: l' =>
      if (SortCompare comparefn x y <=? 0)%Z then x :: l
      else y :: sort_insert comparefn x l'
  end.

Definition Array_sort {A} (comparefn : A -> A -> jsnum) (l : list A) : list A :=
  fold_right (sort_insert comparefn) [] l.

Section Documents.

Variable Date_parse : string -> jsnum.

(** ** lib/parse.js: [parse], imported by main.js as [parseStatement] *)

(** The [for] loop over the indices [idxs], with [results] so far. *)
Fixpoint parse_pages (doc : Doc) (idxs : list nat) (results : list Transaction)
  : Async (list Transaction) :=
  match idxs with
  | [] => ret results
  | i :: idxs' =>
      let pageNum := i + 1 in
      let* page := await (EvGetPage i) (getPage doc i) in
      let* content := await (EvGetTextContent i) (getTextContent page) in
      let* pageResults := lift (processPageContent Date_parse content pageNum) in
      parse_pages doc idxs' (results ++ pageResults)
  end.

Definition parseStatement (doc : Doc) : Async (list Transaction) :=
  let NUM_PAGES := numPages doc in
  (* for (let i = 1; i < NUM_PAGES; i++) *)
  parse_pages doc (seq 1 (NUM_PAGES - 1)) [].

(** ** lib/main.js *)

(** [pdf.getDocument(src).promise] *)
Variable getDocument : jsarg -> result Doc.

Definition comparator (a b : Transaction) : jsnum :=
  let dateA := Date_parse_js Date_parse (Date a) in
  let dateB := Date_parse_js Date_parse (Date b) in
  num_sub dateA dateB.

Definition is_Uint8Array (a : jsarg) : bool :=
  match a with
  | Uint8Array _ => true
  | _ => false
  end.

Definition validateInput (src : jsarg) : result (list (option jsarg)) :=
  match src with
  | Uint8Array _ => Ok [Some src]
  | JsArray elems =>
      if negb (every is_Uint8Array elems)
      then Throw (TypeError "Invalid argument. Array must contain only Uint8Arrays.")
      else Ok elems
  | Other _ =>
      Throw (TypeError "Invalid argument. Must be either a Uint8Array or an array of Uint8Arrays.")
  end.

(** The [for] loop over the statements, with [results] so far. *)
Fixpoint parse_statements (statements : list (option jsarg))
    (results : list Transaction) : Async (list Transaction) :=
  match statements with
  | [] => ret results
  | s :: rest =>
      (* pdf.getDocument(statements[i]) *)
      let* doc := await (EvGetDocument (read_slot s)) (getDocument (read_slot s)) in
      let* data := parseStatement doc in
      parse_statements rest (results ++ data)
  end.

Definition parse (src : jsarg) : Async (list Transaction) :=
  let* statements := lift (validateInput src) in
  let* results := parse_statements statements [] in
  ret (Array_sort comparator results).

End Documents.

(** ** Orders and shapes the statements about [parse] refer to *)

(** [Date.parse(t.Date)] *)
Definition parsed_date (Date_parse : string -> jsnum) (t : Transaction) : jsnum :=
  Date_parse_js Date_parse (Date t).

Definition date_parses (Date_parse : string -> jsnum) (t : Transaction) : Prop :=
  isNaN (parsed_date Date_parse t) = false.

(** The time value of a record whose date parses. *)
Definition time_value (Date_parse : string -> jsnum) (t : Transaction) : Z :=
  match parsed_date Date_parse t with
  | Num x => x
  | NaN => 0%Z
  end.

(** Both dates parse, and the first is not after the second. *)
Definition date_le (Date_parse : string -> jsnum) (a b : Transaction) : Prop :=
  match parsed_date Date_parse a, parsed_date Date_parse b with
  | Num x, Num y => (x <= y)%Z
  | _, _ => False
  end.

(** The date of the record parses to the time value [d]. *)
Definition has_date (Date_parse : string -> jsnum) (d : Z) (t : Transaction) : bool :=
  match parsed_date Date_parse t with
  | Num x => (x =? d)%Z
  | NaN => false
  end.

(** A single byte buffer, or a collection whose elements are all byte
    buffers. *)
Definition valid_argument (src : jsarg) : bool :=
  match src with
  | Uint8Array _ => true
  | JsArray elems => every is_Uint8Array elems
  | Other _ => false
  end.

(** [data] is what [parseStatement] returns for the document of the
    payload read from the slot [s]. *)
Definition document_data (Date_parse : string -> jsnum)
    (getDocument : jsarg -> result Doc) (s : option jsarg)
    (data : list Transaction) : Prop :=
  exists doc log log',
    getDocument (read_slot s) = Ok doc
    /\ parseStatement Date_parse doc log = (log', Ok data).

(** The engine calls of a run that reads the pages [idxs]. *)
Definition page_events (idxs : list nat) : list event :=
  flat_map (fun i => [EvGetPage i; EvGetTextContent i]) idxs.

(** Retrieving and parsing the page that [getPage(i)] returns. *)
Definition page_result (Date_parse : string -> jsnum) (doc : Doc) (i : nat)
  : result (list Transaction) :=
  match getPage doc i with
  | Ok page =>
      match getTextContent page with
      | Ok content => processPageContent Date_parse content (i + 1)
      | Throw e => Throw e
      end
  | Throw e => Throw e
  end.

(** ** A host for running the parser on sample pages

    [Date_parse_mdy] is [Date.parse] restricted to the texts [MM/DD/YYYY]
    that the statements print, read in a host whose time zone is UTC; every
    other text is NaN. The sample pages only put such dates, or words that
    are no dates at all, in the date buckets. *)

Definition digit (c : ascii) : option Z :=
  let n := Z.of_nat (nat_of_ascii c) in
  if ((48 <=? n) && (n <=? 57))%Z then Some (n - 48)%Z else None.

(** Days from 1970-01-01 to the civil date [y]-[m]-[d]. *)
Definition days_from_civil (y m d : Z) : Z :=
  (let y' := if m <=? 2 then y - 1 else y in
   let era := y' / 400 in
   let yoe := y' - era * 400 in
   let mp := if m <=? 2 then m + 9 else m - 3 in
   let doy := (153 * mp + 2) / 5 + d - 1 in
   let doe := yoe * 365 + yoe / 4 - yoe / 100 + doy in
   era * 146097 + doe - 719468)%Z.

Definition Date_parse_mdy (s : string) : jsnum :=
  match s with
  | String m1 (String m2 (String "/" (String d1 (String d2 (String "/"
      (String y1 (String y2 (String y3 (String y4 EmptyString))))))))) =>
      match digit m1, digit m2, digit d1, digit d2,
            digit y1, digit y2, digit y3, digit y4 with
      | Some a, Some b, Some c, Some d, Some e, Some f, Some g, Some h =>
          (let m := 10 * a + b in
           let dd := 10 * c + d in
           let y := 1000 * e + 100 * f + 10 * g + h in
           if (1 <=? m) && (m <=? 12) && (1 <=? dd) && (dd <=? 31)
           then Num (days_from_civil y m dd * 86400000)
           else NaN)%Z
      | _, _, _, _, _, _, _, _ => NaN
      end
  | _ => NaN
  end.

(** A text item whose column bucket is [x] and whose row key is [y]. *)
Definition item_at (text : string) (x y : Z) : Item :=
  {| str := text; transform4 := inject_Z (5 * x); transform5 := inject_Z y |}.

Definition footer_items : list Item :=
  [ item_at "Apple Card is issued by Goldman Sachs Bank USA" 7 20;
    item_at "Page 2" 7 10 ].

Definition statement_header_items : list Item :=
  [ item_at "Statement" 7 700;
    item_at "Apple Card Customer" 7 690;
    item_at "Transactions" 7 680 ].

Definition purchases_items : list Item :=
  [ item_at "Purchases" 7 600 ].

Definition coffee_items : list Item :=
  [ item_at "03/01/2024" 9 590;
    item_at "Coffee Shop" 21 590;
    item_at "4.50" 111 590 ].

(** A statement page: header, a type marker, one transaction, footer. *)
Definition coffee_page : Content :=
  {| items := statement_header_items ++ purchases_items ++ coffee_items
              ++ footer_items |}.

(** The same page with a description-only row under the transaction. *)
Definition coffee_store_page : Content :=
  {| items := statement_header_items ++ purchases_items ++ coffee_items
              ++ [ item_at "Store #1234" 21 580 ] ++ footer_items |}.

(** ... and a second transaction under that row. *)
Definition coffee_store_tea_page : Content :=
  {| items := statement_header_items ++ purchases_items ++ coffee_items
              ++ [ item_at "Store #1234" 21 580;
                   item_at "03/02/2024" 9 570;
                   item_at "Tea House" 21 570;
                   item_at "3.25" 111 570 ] ++ footer_items |}.

(** A page of the same shape whose first rows are not the statement header. *)
Definition other_page : Content :=
  {| items := [ item_at "Payment Information" 7 700;
                item_at "Minimum Payment Due" 7 690;
                item_at "Transactions" 7 680 ]
              ++ purchases_items ++ coffee_items ++ footer_items |}.

(** A page with exactly three rows. *)
Definition three_row_page : Content :=
  {| items := [ item_at "Statement" 7 700;
                item_at "Apple Card Customer" 7 690;
                item_at "Page 1" 7 10 ] |}.

(** A page with two rows. *)
Definition two_row_page : Content :=
  {| items := [ item_at "Statement" 7 700; item_at "Page 1" 7 10 ] |}.

(** A cover page without text. *)
Definition cover_page : Content := {| items := [] |}.

Definition coffee_transaction : Transaction :=
  {| Date := JString "03/01/2024";
     Type_ := JString "Purchases";
     Description := JString "Coffee Shop";
     Daily_Cash_pct := JUndefined;
     Daily_Cash_usd := JUndefined;
     Amount := JString "4.50" |}.

(** A row whose only cell is a date in bucket 7. *)
Definition date_only_row : Row := [(7%Z, "03/01/2024")].

Definition date_only_page : Content :=
  {| items := [ item_at "03/01/2024" 7 590 ] |}.

(** The second record of [coffee_store_tea_page] as the parser returns it. *)
Definition tea_transaction : Transaction :=
  {| Date := JString "03/02/2024";
     Type_ := JUndefined;
     Description := JString "Tea House";
     Daily_Cash_pct := JUndefined;
     Daily_Cash_usd := JUndefined;
     Amount := JString "3.25" |}.

(** The row of the coffee purchase, and a loop state before it. *)
Definition coffee_row : Row :=
  [(9%Z, "03/01/2024"); (21%Z, "Coffee Shop"); (111%Z, "4.50")].

Definition purchases_state : LoopState :=
  {| results := []; row := None; type := JString "Purchases" |}.

(** Every single-column row takes the type-marker branch. *)
Definition single_column_is_type_marker (Date_parse : string -> jsnum) (v : Row) : Prop :=
  length (Object_keys v) = 1 -> row_branch Date_parse v = TypeMarker.

(** A statement file of two pages: the cover, then the coffee page. *)
Definition two_page_statement : Doc := pdfjs_document [cover_page; coffee_page].

(** Two statement files of three pages, with one purchase each. *)
Definition january_5_page : Content :=
  {| items := statement_header_items ++ purchases_items
              ++ [ item_at "01/05/2024" 9 590;
                   item_at "Grocery Store" 21 590;
                   item_at "25.00" 110 590 ] ++ footer_items |}.

Definition january_2_page : Content :=
  {| items := statement_header_items ++ purchases_items
              ++ [ item_at "01/02/2024" 9 590;
                   item_at "Book Store" 21 590;
                   item_at "2%" 85 590;
                   item_at "0.24" 89 590;
                   item_at "12.00" 110 590 ] ++ footer_items |}.

Definition january_5_transaction : Transaction :=
  {| Date := JString "01/05/2024";
     Type_ := JString "Purchases";
     Description := JString "Grocery Store";
     Daily_Cash_pct := JUndefined;
     Daily_Cash_usd := JUndefined;
     Amount := JString "25.00" |}.

Definition january_2_transaction : Transaction :=
  {| Date := JString "01/02/2024";
     Type_ := JString "Purchases";
     Description := JString "Book Store";
     Daily_Cash_pct := JString "2%";
     Daily_Cash_usd := JString "0.24";
     Amount := JString "12.00" |}.

Definition first_file : jsarg := Uint8Array [Byte.x01].
Definition second_file : jsarg := Uint8Array [Byte.x02].

(** An engine that knows the two files. *)
Definition sample_getDocument (src : jsarg) : result Doc :=
  match src with
  | Uint8Array [Byte.x01] =>
      Ok (pdfjs_document [cover_page; january_5_page; cover_page])
  | Uint8Array [Byte.x02] =>
      Ok (pdfjs_document [cover_page; january_2_page; cover_page])
  | _ => Throw (Error "Invalid PDF structure.")
  end.

(** ** Readings of the grouping loop and of the row loop

    The definitions below describe what the loops compute; the properties
    relate them to the loops. *)

(** The text of the item is not blank: [str !== ''] after [trim]. *)
Definition nonblank (item : Item) : bool :=
  negb (String.eqb (trim (str item)) "").

(** The column bucket and the row key of an item. *)
Definition item_x (item : Item) : Z := Math_round (transform4 item / 5).
Definition item_y (item : Item) : Z := Math_round (transform5 item).

(** [o[y][x]] on the grouping. *)
Definition cell (o : jsobj Row) (y x : Z) : option string :=
  match obj_get o y with
  | Some r => obj_get r x
  | None => None
  end.

(** The trimmed text of the last non-blank item of [its] that has row key
    [y] and column bucket [x]. *)
Fixpoint last_text (its : list Item) (y x : Z) : option string :=
  match its with
  | [] => None
  | item :: its' =>
      match last_text its' y x with
      | Some s => Some s
      | None =>
          if nonblank item && (item_y item =? y)%Z && (item_x item =? x)%Z
          then Some (trim (str item))
          else None
      end
  end.

(** The non-blank items of [its] have row keys and column buckets that are
    array indices: their coordinates round to 0 or more. *)
Definition in_index_range (its : list Item) : Prop :=
  Forall (fun item =>
            nonblank item = true ->
            is_array_index (item_y item) = true
            /\ is_array_index (item_x item) = true) its.

(** Non-blank items of [its] that fall in the same cell carry the same
    text. *)
Definition same_text_on_collision (its : list Item) : Prop :=
  forall a b,
    In a its -> In b its -> nonblank a = true -> nonblank b = true ->
    item_y a = item_y b -> item_x a = item_x b ->
    trim (str a) = trim (str b).

(** The keys are array indices in ascending order. *)
Definition index_sorted {V} (o : jsobj V) : Prop :=
  Forall (fun k => is_array_index k = true) (Object_keys o)
  /\ Sorted Z.lt (Object_keys o).

(** The row keys of a page, in the order of [page_rows]. *)
Definition page_row_keys (content : Content) : list Z :=
  reverse (Object_keys (group_items (items content))).

(** The records of a sequence of rows, read off row by row: a type-marker
    row sets the type of the records after it, a new-transaction row gives
    one record, every other row gives nothing. *)
Fixpoint transactions_of (Date_parse : string -> jsnum) (rows : list Row)
    (type : jsval) : list Transaction :=
  match rows with
  | [] => []
  | v :: rows' =>
      match row_branch Date_parse v with
      | TypeMarker => transactions_of Date_parse rows' (prop v 7)
      | NewTransaction =>
          new_transaction type v :: transactions_of Date_parse rows' type
      | _ => transactions_of Date_parse rows' type
      end
  end.

(** The engine calls for one payload: the document, then its pages. *)
Definition document_events (getDocument : jsarg -> result Doc)
    (s : option jsarg) : list event :=
  match getDocument (read_slot s) with
  | Ok doc =>
      EvGetDocument (read_slot s) :: page_events (seq 1 (numPages doc - 1))
  | Throw _ => [EvGetDocument (read_slot s)]
  end.

(** One iteration of the loop of [parse]: decode the payload, parse the
    document. *)
Definition process_statement (Date_parse : string -> jsnum)
    (getDocument : jsarg -> result Doc) (s : option jsarg)
  : Async (list Transaction) :=
  let* doc := await (EvGetDocument (read_slot s)) (getDocument (read_slot s)) in
  parseStatement Date_parse doc.




(** The items of the coffee page in another order. *)
Definition shuffled_coffee_page : Content :=
  {| items := footer_items ++ coffee_items ++ purchases_items
              ++ statement_header_items |}.

(** A page with four rows: three header rows and one footer row remain
    after the footer is cut, and no body. *)
Definition four_row_page : Content :=
  {| items := statement_header_items ++ [ item_at "Page 2" 7 10 ] |}.

(** A document handle whose second page cannot be read. *)
Definition broken_second_page : Doc :=
  {| numPages := 4;
     getPage n :=
       match n with
       | 1 => Ok {| getTextContent := Ok coffee_page |}
       | 2 => Ok {| getTextContent := Throw (Error "Missing PDF data.") |}
       | _ => Ok {| getTextContent := Ok january_5_page |}
       end |}.

(** * Properties *)

(** ** [reverse] computes the reversed array *)

Lemma swap_cons {A} (z : A) i j l :
  swap (S i) (S j) (z :: l) = z :: swap i j l.
Proof.
  unfold swap. simpl.
  destruct (l !! i); [|reflexivity].
  destruct (l !! j); reflexivity.
Qed.

Lemma swap_ends {A} (x y : A) m b :
  swap 0 (S (length m)) (x :: m ++ y :: b) = y :: m ++ x :: b.
Proof.
  unfold swap. simpl.
  rewrite list_lookup_middle by reflexivity.
  simpl. f_equal.
  replace (length m) with (length m + 0) by lia.
  rewrite insert_app_r. reflexivity.
Qed.

Lemma swap_middle {A} (a : list A) x y m b :
  swap (length a) (length a + S (length m)) (a ++ x :: m ++ y :: b)
  = a ++ y :: m ++ x :: b.
Proof.
  induction a as [|z a IH]; simpl.
  - apply swap_ends.
  - rewrite swap_cons, IH. reflexivity.
Qed.

(** The loop invariant: with the first and the last [length a] cells done,
    the remaining iterations reverse the middle. *)
Lemma reverse_loop_middle {A} (n : nat) :
  forall (m a b : list A),
    length m < 2 * S n ->
    length a = length b ->
    reverse_loop (length m / 2) (length a) (length a + length m + length b)
      (a ++ m ++ b)
    = a ++ rev m ++ b.
Proof.
  induction n as [|n IH]; intros m a b Hm Hab.
  - destruct m as [|x [|y m]]; simpl in Hm; try lia; reflexivity.
  - destruct m as [|x m]; [reflexivity|].
    destruct (rev m) as [|y m'] eqn:Hrev.
    + apply (f_equal (@rev A)) in Hrev. rewrite rev_involutive in Hrev.
      subst m. reflexivity.
    + apply (f_equal (@rev A)) in Hrev. rewrite rev_involutive in Hrev.
      simpl in Hrev. subst m.
      set (m := rev m') in *.
      rewrite length_cons, length_app in Hm. simpl in Hm.
      replace (length (x :: m ++ [y])) with (S (S (length m)))
        by (rewrite length_cons, length_app; simpl; lia).
      replace (S (S (length m)) / 2) with (S (length m / 2)).
      2:{ change (S (S (length m))) with (1 * 2 + length m).
          rewrite Nat.add_comm, Nat.div_add by lia. lia. }
      cbn [reverse_loop].
      replace (length a + S (S (length m)) + length b - 1 - length a)
        with (length a + S (length m)) by lia.
      replace (a ++ (x :: m ++ [y]) ++ b) with (a ++ x :: m ++ y :: b)
        by (simpl; rewrite <- (app_assoc m [y] b); reflexivity).
      rewrite swap_middle.
      replace (a ++ y :: m ++ x :: b) with ((a ++ [y]) ++ m ++ (x :: b))
        by (rewrite <- app_assoc; reflexivity).
      replace (S (length a)) with (length (a ++ [y]))
        by (rewrite length_app; simpl; lia).
      replace (length a + S (S (length m)) + length b)
        with (length (a ++ [y]) + length m + length (x :: b))
        by (rewrite length_app; simpl; lia).
      rewrite IH.
      * simpl. rewrite rev_app_distr. simpl. subst m.
        rewrite <- !app_assoc. reflexivity.
      * lia.
      * rewrite length_app. simpl. lia.
Qed.

Lemma reverse_rev {A} (arr : list A) : reverse arr = rev arr.
Proof.
  unfold reverse.
  pose proof (reverse_loop_middle (length arr) arr [] []) as H.
  simpl in H. rewrite !app_nil_r, Nat.add_0_r in H.
  apply H; lia.
Qed.

Lemma reverse_length {A} (arr : list A) : length (reverse arr) = length arr.
Proof. rewrite reverse_rev. apply length_rev. Qed.

(** ** Objects *)

Section ObjectFacts.
Context {V : Type}.
Implicit Types (o : jsobj V) (k : Z) (v : V).

Lemma obj_get_update_eq k v o :
  obj_get o k <> None -> obj_get (obj_update k v o) k = Some v.
Proof.
  induction o as [|[k' v'] o IH]; simpl; [congruence|].
  destruct (k' =? k)%Z eqn:E; simpl.
  - rewrite Z.eqb_refl. reflexivity.
  - rewrite E. exact IH.
Qed.

Lemma obj_get_add_index_eq k v o :
  obj_get o k = None -> obj_get (obj_add_index k v o) k = Some v.
Proof.
  induction o as [|[k' v'] o IH]; simpl.
  - rewrite Z.eqb_refl. reflexivity.
  - destruct (k' =? k)%Z eqn:E; [congruence|]. intros Hn.
    destruct (is_array_index k' && (k' <? k)%Z); simpl.
    + rewrite E. auto.
    + rewrite Z.eqb_refl. reflexivity.
Qed.

Lemma obj_get_app_new k v o :
  obj_get o k = None -> obj_get (o ++ [(k, v)]) k = Some v.
Proof.
  induction o as [|[k' v'] o IH]; simpl.
  - rewrite Z.eqb_refl. reflexivity.
  - destruct (k' =? k)%Z; [congruence | exact IH].
Qed.

(** Reading back what was assigned. *)
Lemma obj_get_set_eq k v o : obj_get (obj_set k v o) k = Some v.
Proof.
  unfold obj_set. destruct (obj_get o k) eqn:E.
  - apply obj_get_update_eq. congruence.
  - destruct (is_array_index k);
      [apply obj_get_add_index_eq | apply obj_get_app_new]; exact E.
Qed.

Variable P : V -> Prop.

Local Abbreviation all_values := (all_values P).

Lemma all_values_get o k v : all_values o -> obj_get o k = Some v -> P v.
Proof.
  induction 1 as [|[k' v'] o Hx Ho IH]; simpl; [congruence|].
  destruct (k' =? k)%Z; [intros [= <-]; exact Hx | exact IH].
Qed.

Lemma all_values_update k v o :
  P v -> all_values o -> all_values (obj_update k v o).
Proof.
  intros Hv. induction 1 as [|[k' v'] o Hx Ho IH]; simpl; [constructor|].
  destruct (k' =? k)%Z; constructor; auto.
Qed.

Lemma all_values_add_index k v o :
  P v -> all_values o -> all_values (obj_add_index k v o).
Proof.
  intros Hv. induction 1 as [|[k' v'] o Hx Ho IH]; simpl.
  - constructor; [exact Hv | constructor].
  - destruct (is_array_index k' && (k' <? k)%Z).
    + constructor; auto.
    + constructor; [exact Hv|]. constructor; auto.
Qed.

Lemma all_values_set k v o :
  P v -> all_values o -> all_values (obj_set k v o).
Proof.
  intros Hv Ho. unfold obj_set. destruct (obj_get o k).
  - apply all_values_update; assumption.
  - destruct (is_array_index k).
    + apply all_values_add_index; assumption.
    + apply Forall_app. split; [exact Ho|].
      constructor; [exact Hv | constructor].
Qed.

Lemma all_values_Object_values o : all_values o -> Forall P (Object_values o).
Proof.
  unfold Object_values. induction 1; simpl; constructor; auto.
Qed.

End ObjectFacts.

(** ** Layout reconstruction: every cell of every row is a non-empty text *)

Lemma group_item_nonempty o item :
  all_values nonempty_values o -> all_values nonempty_values (group_item o item).
Proof.
  intros Ho. unfold group_item.
  destruct (String.eqb (trim (str item)) "") eqn:E; [exact Ho|].
  apply String.eqb_neq in E.
  set (x := Math_round (transform4 item / 5)).
  set (y := Math_round (transform5 item)).
  set (o1 := match obj_get o y with None => obj_set y [] o | Some _ => o end).
  assert (Ho1 : all_values nonempty_values o1).
  { subst o1. destruct (obj_get o y); [exact Ho|].
    apply all_values_set; [constructor | exact Ho]. }
  clearbody o1.
  destruct (obj_get o1 y) as [r|] eqn:Er; [|exact Ho1].
  apply all_values_set; [|exact Ho1].
  apply all_values_set; [exact E|].
  exact (all_values_get _ _ _ _ Ho1 Er).
Qed.

Lemma group_items_nonempty its :
  all_values nonempty_values (group_items its).
Proof.
  unfold group_items.
  assert (H : all_values nonempty_values (@nil (Z * Row))) by constructor.
  revert H. generalize (@nil (Z * Row)).
  induction its as [|item its IH]; intros o Ho; simpl; [exact Ho|].
  apply IH, group_item_nonempty, Ho.
Qed.

Lemma page_rows_nonempty content : Forall nonempty_values (page_rows content).
Proof.
  unfold page_rows. rewrite reverse_rev.
  apply Forall_rev, all_values_Object_values, group_items_nonempty.
Qed.

(** ** The row loop *)

Section ParserFacts.

Variable Date_parse : string -> jsnum.

Local Abbreviation Date_parse_js := (Date_parse_js Date_parse).
Local Abbreviation processRow := (processRow Date_parse).
Local Abbreviation row_branch := (row_branch Date_parse).
Local Abbreviation process_rows := (process_rows Date_parse).
Local Abbreviation processPageContent := (processPageContent Date_parse).

Lemma processRow_branch st v : processRow st v = run_branch (row_branch v) st v.
Proof.
  unfold processRow, row_branch.
  destruct (isNaN _ && _); [reflexivity|].
  destruct (negb _); [reflexivity|].
  destruct (length _ =? 1); [reflexivity|].
  destruct (isNaN _); reflexivity.
Qed.

(** A value that parses as a date is a string. *)
Lemma Date_parse_js_string v :
  isNaN (Date_parse_js v) = false -> exists s, v = JString s.
Proof. destruct v; simpl; try discriminate. eauto. Qed.

(** In a row with one column, a bucket that holds a value is the only one. *)
Lemma single_column_prop (v : Row) k k' s :
  length (Object_keys v) = 1 -> prop v k = JString s -> k' <> k ->
  prop v k' = JUndefined.
Proof.
  destruct v as [|[k0 s0] [|? v]]; try discriminate. intros _.
  unfold prop. simpl.
  destruct (k0 =? k)%Z eqn:E; [|discriminate].
  apply Z.eqb_eq in E. subst k0. intros _ Hne.
  destruct (k =? k')%Z eqn:E'; [|reflexivity].
  apply Z.eqb_eq in E'. congruence.
Qed.

Lemma single_column_branch (v : Row) :
  length (Object_keys v) = 1 ->
  row_branch v = TypeMarker
  \/ (row_branch v = MissingDescription
      /\ isNaN (Date_parse_js (prop v 7)) = false).
Proof.
  intros Hlen. unfold row_branch. rewrite Hlen. simpl.
  destruct (isNaN (Date_parse_js (prop v 7))) eqn:Hd; [left; reflexivity|].
  right. simpl. split; [|reflexivity].
  destruct (Date_parse_js_string _ Hd) as [s Hs].
  rewrite (single_column_prop v 7 21 s Hlen Hs) by lia. reflexivity.
Qed.

Lemma row_branch_not_continuation (v : Row) : row_branch v <> Continuation.
Proof.
  destruct (Nat.eq_dec (length (Object_keys v)) 1) as [Hlen|Hlen].
  - destruct (single_column_branch v Hlen) as [H|[H _]]; rewrite H; discriminate.
  - unfold row_branch. apply Nat.eqb_neq in Hlen. rewrite Hlen.
    rewrite andb_false_r.
    destruct (negb _); [discriminate|].
    destruct (isNaN _); discriminate.
Qed.

(** No row makes the loop body throw. *)
Lemma processRow_returns st v : exists st', processRow st v = Ok st'.
Proof.
  rewrite processRow_branch.
  pose proof (row_branch_not_continuation v) as H.
  destruct (row_branch v); simpl; eauto. congruence.
Qed.

Lemma process_rows_returns rows :
  forall st, exists st', process_rows rows st = Ok st'.
Proof.
  induction rows as [|v rows IH]; intros st; simpl; [eauto|].
  destruct (processRow_returns st v) as [st' ->]. apply IH.
Qed.

(** The header texts do not enter the result: [!text] is a boolean, which
    is never [===] to a string. *)
Lemma header_check_false (t : option string) (expected : string) :
  strict_eq (js_not (toLowerCase_opt t)) (JString expected) = false.
Proof. reflexivity. Qed.

(** The page parser by row count. *)
Lemma processPageContent_by_rows content pageNum :
  processPageContent content pageNum =
    if length (page_rows content) <? 3 then Ok []
    else if length (page_rows content) =? 3 then Throw not_an_object
    else match process_rows (body_rows content) init_state with
         | Ok st => Ok (push_pending st)
         | Throw e => Throw e
         end.
Proof.
  unfold processPageContent, body_rows.
  set (rows := page_rows content).
  destruct (length rows <? 3) eqn:H3; [reflexivity|].
  apply Nat.ltb_ge in H3.
  assert (Hlen : length (take (length rows - 2) rows) = length rows - 2).
  { rewrite length_take. lia. }
  destruct (take (length rows - 2) rows) as [|h0 [|h1 rest]] eqn:Ht;
    simpl in Hlen.
  - lia.
  - replace (length rows) with 3 by lia. reflexivity.
  - replace (length rows =? 3) with false
      by (symmetry; apply Nat.eqb_neq; lia).
    destruct rest; reflexivity.
Qed.

Lemma processPageContent_throws_iff content pageNum e :
  processPageContent content pageNum = Throw e
  <-> length (page_rows content) = 3 /\ e = not_an_object.
Proof.
  rewrite processPageContent_by_rows.
  destruct (length (page_rows content) <? 3) eqn:H3.
  - apply Nat.ltb_lt in H3. split; [discriminate | lia].
  - destruct (length (page_rows content) =? 3) eqn:E3.
    + apply Nat.eqb_eq in E3. split; [intros [= <-]; auto | intros [_ ->]; auto].
    + apply Nat.eqb_neq in E3.
      destruct (process_rows_returns (body_rows content) init_state) as [st ->].
      split; [discriminate | lia].
Qed.

(** *** New-transaction rows *)

Lemma row_branch_new_transaction (v : Row) :
  row_branch v = NewTransaction
  <-> truthy (prop v 21) = true
      /\ isNaN (Date_parse_js (js_or (prop v 9) (prop v 7))) = false.
Proof.
  split.
  - unfold row_branch.
    destruct (isNaN _ && _); [discriminate|].
    destruct (truthy (prop v 21)); simpl; [|discriminate].
    destruct (length _ =? 1); [discriminate|].
    destruct (isNaN _); [discriminate | auto].
  - intros [Hdesc Hdate].
    assert (Hlen : (length (Object_keys v) =? 1) = false).
    { apply Nat.eqb_neq. intros Hlen.
      destruct (obj_get v 21) as [s21|] eqn:Hget;
        [|unfold prop in Hdesc; rewrite Hget in Hdesc; discriminate].
      assert (H21 : prop v 21 = JString s21)
        by (unfold prop; rewrite Hget; reflexivity).
      rewrite (single_column_prop v 21 9 s21 Hlen H21) in Hdate by lia.
      rewrite (single_column_prop v 21 7 s21 Hlen H21) in Hdate by lia.
      discriminate. }
    unfold row_branch. rewrite Hlen, andb_false_r, Hdesc, Hdate. reflexivity.
Qed.

Lemma picks_prop (v : Row) k : picks [k] v (prop v k).
Proof.
  unfold picks, prop. simpl.
  destruct (obj_get v k) as [s|]; [|reflexivity].
  destruct (String.eqb s "") eqn:E; [|reflexivity].
  simpl. rewrite E. reflexivity.
Qed.

Lemma picks_or (v : Row) k ks b :
  picks ks v b -> picks (k :: ks) v (js_or (prop v k) b).
Proof.
  unfold picks, prop, js_or. simpl. intros Hb.
  destruct (obj_get v k) as [s|]; simpl; [|exact Hb].
  destruct (String.eqb s ""); simpl; [exact Hb | reflexivity].
Qed.

(** *** Invariants of the loop *)

Lemma push_pending_inv P T st : state_inv P T st -> Forall P (push_pending st).
Proof.
  intros (Hres & Hrow & _). unfold push_pending.
  destruct (row st) as [r|]; [|exact Hres].
  apply Forall_app. split; [exact Hres|].
  constructor; [auto | constructor].
Qed.

Section Invariant.

Variables (P : Transaction -> Prop) (T : jsval -> Prop) (R : Row -> Prop).

Hypothesis new_transaction_P :
  forall ty v, R v -> T ty -> row_branch v = NewTransaction ->
               P (new_transaction ty v).
Hypothesis type_marker_T :
  forall v, R v -> row_branch v = TypeMarker -> T (prop v 7).

Lemma processRow_inv st v st' :
  R v -> state_inv P T st -> processRow st v = Ok st' -> state_inv P T st'.
Proof.
  intros HR Hinv. rewrite processRow_branch.
  pose proof (row_branch_not_continuation v) as Hnc.
  destruct (row_branch v) eqn:Hb; simpl; try congruence; intros [= <-];
    try exact Hinv.
  - split; [exact (push_pending_inv _ _ _ Hinv)|]. simpl.
    split; [discriminate | auto].
  - destruct Hinv as (Hres & Hrow & Hty).
    split; [exact (push_pending_inv P T st (conj Hres (conj Hrow Hty)))|].
    simpl. split; [|exact Hty].
    intros r [= <-]. auto.
Qed.

Lemma process_rows_inv rows :
  forall st st',
    Forall R rows -> state_inv P T st -> process_rows rows st = Ok st' ->
    state_inv P T st'.
Proof.
  induction rows as [|v rows IH]; intros st st' HR Hinv; simpl.
  - intros [= <-]. exact Hinv.
  - inversion HR as [|? ? Hv Hrows]; subst.
    destruct (processRow st v) as [st1|e] eqn:E; [|discriminate].
    apply IH; [exact Hrows|].
    exact (processRow_inv st v st1 Hv Hinv E).
Qed.

(** What holds of every record the page parser returns. *)
Lemma processPageContent_inv content pageNum res :
  Forall R (body_rows content) -> T JNull ->
  processPageContent content pageNum = Ok res -> Forall P res.
Proof.
  intros HR HT. rewrite processPageContent_by_rows.
  destruct (_ <? 3); [intros [= <-]; constructor|].
  destruct (_ =? 3); [discriminate|].
  destruct (process_rows _ _) as [st|e] eqn:E; [|discriminate].
  intros [= <-]. apply (push_pending_inv P T).
  apply (process_rows_inv _ _ _ HR) in E; [exact E|].
  split; [constructor|]. split; [discriminate | exact HT].
Qed.

End Invariant.

Lemma body_rows_nonempty content : Forall nonempty_values (body_rows content).
Proof.
  unfold body_rows. apply Forall_drop, Forall_take, page_rows_nonempty.
Qed.

Lemma prop_text_or_undefined (v : Row) k :
  nonempty_values v -> is_text_or_undefined (prop v k) = true.
Proof.
  intros Hv. unfold prop. destruct (obj_get v k) as [s|] eqn:E; [|reflexivity].
  simpl. apply negb_true_iff, String.eqb_neq.
  exact (all_values_get _ _ _ _ Hv E).
Qed.

Lemma js_or_text_or_undefined a b :
  is_text_or_undefined a = true -> is_text_or_undefined b = true ->
  is_text_or_undefined (js_or a b) = true.
Proof. unfold js_or. destruct (truthy a); auto. Qed.

(** The fields of a record made from a row of the page. *)
Lemma new_transaction_fields ty (v : Row) :
  nonempty_values v -> row_branch v = NewTransaction ->
  fields_text_or_undefined (new_transaction ty v) = true
  /\ isNaN (Date_parse_js (Date (new_transaction ty v))) = false.
Proof.
  intros Hv Hb. apply row_branch_new_transaction in Hb as [Hdesc Hdate].
  split; [|exact Hdate].
  unfold fields_text_or_undefined. simpl.
  pose proof (prop_text_or_undefined v) as Hp.
  repeat (apply andb_true_iff; split);
    auto 10 using js_or_text_or_undefined.
  - assert (Ht : is_text_or_undefined (js_or (prop v 9) (prop v 7)) = true)
      by auto using js_or_text_or_undefined.
    destruct (Date_parse_js_string _ Hdate) as [s Hs].
    rewrite Hs in *. exact Ht.
  - specialize (Hp 21%Z Hv).
    destruct (prop v 21); try discriminate. exact Hp.
Qed.

End ParserFacts.

(** ** The page parser: claims *)

Section PageClaims.

Variable Date_parse : string -> jsnum.

Local Abbreviation Date_parse_js := (Date_parse_js Date_parse).
Local Abbreviation processRow := (processRow Date_parse).
Local Abbreviation row_branch := (row_branch Date_parse).
Local Abbreviation processPageContent := (processPageContent Date_parse).

(** C9: a page whose reconstructed row count is below 3 yields exactly the
    empty list of transactions, and no error. *)
Theorem C9_fewer_than_three_rows content pageNum :
  length (page_rows content) < 3 ->
  processPageContent content pageNum = Ok [].
Proof.
  intros H. rewrite processPageContent_by_rows.
  apply Nat.ltb_lt in H. rewrite H. reflexivity.
Qed.

(** C5 fails on the code: the page with exactly three rows passes the
    row-count guard, loses two rows as footer, and reading its second
    header row throws a TypeError. *)
Theorem C5_three_row_page_throws pageNum :
  length (page_rows three_row_page) = 3
  /\ processPageContent three_row_page pageNum = Throw not_an_object.
Proof.
  split; [reflexivity|].
  apply processPageContent_throws_iff. split; reflexivity.
Qed.

(** C8: a row with a parseable date (bucket 9, else bucket 7) and a
    description starts a new record; its daily-cash percent is the value
    of bucket 85 else 83, its daily-cash amount the value of bucket 89, and
    its Amount the first non-empty of buckets 111, 110, 109, 108, 107. *)
Theorem C8_new_transaction_fields st (v : Row) :
  isNaN (Date_parse_js (js_or (prop v 9) (prop v 7))) = false ->
  truthy (prop v 21) = true ->
  exists t,
    processRow st v
    = Ok {| results := push_pending st; row := Some t; type := type st |}
    /\ picks [9; 7]%Z v (Date t)
    /\ Type_ t = type st
    /\ Description t = prop v 21
    /\ picks [85; 83]%Z v (Daily_Cash_pct t)
    /\ picks [89]%Z v (Daily_Cash_usd t)
    /\ picks [111; 110; 109; 108; 107]%Z v (Amount t).
Proof.
  intros Hdate Hdesc.
  exists (new_transaction (type st) v).
  split.
  - rewrite processRow_branch.
    rewrite (proj2 (row_branch_new_transaction Date_parse v) (conj Hdesc Hdate)).
    reflexivity.
  - simpl. repeat split; auto 10 using picks_prop, picks_or.
Qed.

(** A row with one column whose bucket 7 holds a date is that date alone,
and the loop skips it at the missing-description test. *)
Lemma single_column_date_skipped (v : Row) :
  length (Object_keys v) = 1 ->
  isNaN (Date_parse_js (prop v 7)) = false ->
  (exists s, v = [(7%Z, s)] /\ isNaN (Date_parse s) = false)
  /\ row_branch v = MissingDescription
  /\ (forall st, processRow st v = Ok st).
Proof.
  intros Hlen Hd.
  assert (Hb : row_branch v = MissingDescription).
  { destruct (single_column_branch Date_parse v Hlen) as [H|[H _]]; [|exact H].
    unfold row_branch in H. rewrite Hd in H. simpl in H.
    repeat match type of H with
           | context [if ?c then _ else _] => destruct c
           end; discriminate H. }
  split; [|split; [exact Hb|]].
  - destruct v as [|[k s] [|? v]]; try discriminate.
    unfold prop in Hd. simpl in Hd.
    destruct (k =? 7)%Z eqn:E; [|discriminate].
    apply Z.eqb_eq in E. subst k. exists s. auto.
  - intros st. rewrite processRow_branch, Hb. reflexivity.
Qed.

(** A row with one column and no date in bucket 7 is handled by the
type-marker branch. *)
Lemma single_column_no_date_marker (v : Row) :
  length (Object_keys v) = 1 ->
  isNaN (Date_parse_js (prop v 7)) = true ->
  row_branch v = TypeMarker
  /\ (forall st,
        processRow st v
        = Ok {| results := push_pending st; row := None; type := prop v 7 |}).
Proof.
  intros Hlen Hd.
  assert (Hb : row_branch v = TypeMarker)
    by (unfold row_branch; rewrite Hd, Hlen; reflexivity).
  split; [exact Hb|].
  intros st. rewrite processRow_branch, Hb. reflexivity.
Qed.

(** C10, as the code has it: a row with exactly one column is handled by
the type-marker branch, except the row whose sole value sits at bucket 7
and parses as a date: that row is not a type marker, it is skipped by
the missing-description test and leaves the state of the loop as it
is. So the continuation branch handles no row at all. *)
Theorem C10_continuation_branch_unreachable (v : Row) :
  (length (Object_keys v) = 1 ->
     (isNaN (Date_parse_js (prop v 7)) = true ->
        row_branch v = TypeMarker
        /\ (forall st,
              processRow st v
              = Ok {| results := push_pending st; row := None;
                      type := prop v 7 |}))
     /\ (isNaN (Date_parse_js (prop v 7)) = false ->
           (exists s, v = [(7%Z, s)] /\ isNaN (Date_parse s) = false)
           /\ row_branch v = MissingDescription
           /\ (forall st, processRow st v = Ok st)))
  /\ row_branch v <> Continuation
  /\ (forall st, processRow st v = run_branch (row_branch v) st v).
Proof.
  split; [|split].
  - intros Hlen. split.
    + apply single_column_no_date_marker, Hlen.
    + apply single_column_date_skipped, Hlen.
  - apply row_branch_not_continuation.
  - intros st. apply processRow_branch.
Qed.

Lemma row_branch_type_marker (v : Row) :
  row_branch v = TypeMarker -> length (Object_keys v) = 1.
Proof.
  unfold row_branch.
  destruct (length (Object_keys v) =? 1) eqn:E;
    [intros _; apply Nat.eqb_eq; exact E|].
  rewrite andb_false_r.
  destruct (negb _); [discriminate|].
  destruct (isNaN _); discriminate.
Qed.

(** The fields of the records of a page: Date and Description are non-empty
    strings, the daily-cash fields and Amount are non-empty strings or
    undefined; Type is a non-empty string or null when every single-column
    row of the page body has its value in bucket 7. *)
Lemma processPageContent_fields content pageNum res :
  processPageContent content pageNum = Ok res ->
  Forall (fun t =>
            fields_text_or_undefined t = true
            /\ (single_columns_in_type_bucket (body_rows content) = true ->
                is_text_or_null (Type_ t) = true)) res.
Proof.
  intros Hres.
  destruct (single_columns_in_type_bucket (body_rows content)) eqn:Hcols.
  - apply (processPageContent_inv Date_parse
             (fun t => fields_text_or_undefined t = true
                       /\ (true = true -> is_text_or_null (Type_ t) = true))
             (fun ty => is_text_or_null ty = true)
             (fun v => nonempty_values v
                       /\ (length (Object_keys v) = 1 -> obj_get v 7 <> None)))
      with (content := content) (pageNum := pageNum); auto.
    + intros ty v [Hv _] Hty Hb. split; [|intros _; exact Hty].
      apply (new_transaction_fields Date_parse ty v Hv Hb).
    + intros v [Hv Hcol] Hb. apply row_branch_type_marker in Hb.
      specialize (Hcol Hb). unfold prop.
      destruct (obj_get v 7) as [s|] eqn:E; [|congruence].
      simpl. apply negb_true_iff, String.eqb_neq.
      exact (all_values_get _ _ _ _ Hv E).
    + pose proof (body_rows_nonempty content) as Hne.
      unfold single_columns_in_type_bucket in Hcols.
      rewrite forallb_forall in Hcols.
      apply Forall_forall. intros v Hin. split.
      * rewrite Forall_forall in Hne. auto.
      * intros Hlen. apply list_elem_of_In, Hcols in Hin.
        rewrite Hlen in Hin. simpl in Hin.
        destruct (obj_get v 7); [discriminate | discriminate].
  - apply (processPageContent_inv Date_parse
             (fun t => fields_text_or_undefined t = true
                       /\ (false = true -> is_text_or_null (Type_ t) = true))
             (fun _ => True) nonempty_values)
      with (content := content) (pageNum := pageNum); auto.
    + intros ty v Hv _ Hb. split; [|discriminate].
      apply (new_transaction_fields Date_parse ty v Hv Hb).
    + apply body_rows_nonempty.
Qed.

End PageClaims.

(** ** [Array_sort]: permutation, order, stability *)

Section SortFacts.

Context {A : Type}.
Variable comparefn : A -> A -> jsnum.

Lemma sort_insert_Permutation x l :
  Permutation (sort_insert comparefn x l) (x :: l).
Proof.
  induction l as [|y l IH]; simpl; [reflexivity|].
  destruct (SortCompare comparefn x y <=? 0)%Z; [reflexivity|].
  rewrite IH. apply perm_swap.
Qed.

Lemma Array_sort_Permutation l : Permutation (Array_sort comparefn l) l.
Proof.
  induction l as [|x l IH]; simpl; [reflexivity|].
  rewrite sort_insert_Permutation, IH. reflexivity.
Qed.

(** The comparator orders the elements that satisfy [ok] by their [key]. *)
Variable ok : A -> Prop.
Variable key : A -> Z.
Hypothesis comparefn_key :
  forall x y, ok x -> ok y ->
              SortCompare comparefn x y = (key x - key y)%Z.

Local Abbreviation key_le := (fun x y => (key x <= key y)%Z).

Lemma sort_insert_ok x l :
  ok x -> Forall ok l -> Forall ok (sort_insert comparefn x l).
Proof.
  intros Hx Hl.
  rewrite sort_insert_Permutation. constructor; assumption.
Qed.

Lemma Array_sort_ok l : Forall ok l -> Forall ok (Array_sort comparefn l).
Proof.
  intros Hl.
  rewrite Array_sort_Permutation. exact Hl.
Qed.

Lemma sort_insert_Sorted x l :
  ok x -> Forall ok l -> Sorted key_le l ->
  Sorted key_le (sort_insert comparefn x l).
Proof.
  intros Hx Hl Hs. induction Hs as [|y l Hs IH Hhd]; simpl.
  - repeat constructor.
  - inversion Hl as [|? ? Hy Hl']; subst.
    pose proof (comparefn_key x y Hx Hy) as Hc.
    destruct (SortCompare comparefn x y <=? 0)%Z eqn:E.
    + apply Z.leb_le in E.
      constructor; [constructor; assumption|]. constructor. lia.
    + apply Z.leb_gt in E. constructor; [auto|].
      destruct l as [|z l]; simpl; [constructor; lia|].
      inversion Hhd; subst.
      destruct (SortCompare comparefn x z <=? 0)%Z; constructor; [lia | assumption].
Qed.

Lemma Array_sort_Sorted l :
  Forall ok l -> Sorted key_le (Array_sort comparefn l).
Proof.
  induction 1 as [|x l Hx Hl IH]; simpl; [constructor|].
  apply sort_insert_Sorted; auto using Array_sort_ok.
Qed.

(** Insertion does not move [x] past an element with the same key. *)
Lemma sort_insert_filter d x l :
  ok x -> Forall ok l ->
  List.filter (fun t => (key t =? d)%Z) (sort_insert comparefn x l)
  = List.filter (fun t => (key t =? d)%Z) (x :: l).
Proof.
  intros Hx Hl. induction Hl as [|y l Hy Hl IH]; [reflexivity|].
  cbn [sort_insert].
  pose proof (comparefn_key x y Hx Hy) as Hc.
  destruct (SortCompare comparefn x y <=? 0)%Z eqn:E; [reflexivity|].
  apply Z.leb_gt in E.
  cbn [List.filter] in *. rewrite IH.
  destruct (key x =? d)%Z eqn:Ex; [|reflexivity].
  destruct (key y =? d)%Z eqn:Ey; [|reflexivity].
  apply Z.eqb_eq in Ex, Ey. lia.
Qed.

Lemma Array_sort_filter d l :
  Forall ok l ->
  List.filter (fun t => (key t =? d)%Z) (Array_sort comparefn l)
  = List.filter (fun t => (key t =? d)%Z) l.
Proof.
  induction 1 as [|x l Hx Hl IH]; [reflexivity|].
  change (Array_sort comparefn (x :: l))
    with (sort_insert comparefn x (Array_sort comparefn l)).
  rewrite sort_insert_filter by auto using Array_sort_ok.
  cbn [List.filter]. rewrite IH. reflexivity.
Qed.

End SortFacts.

(** ** Documents *)

Section DocumentFacts.

Variable Date_parse : string -> jsnum.

Local Abbreviation processPageContent := (processPageContent Date_parse).
Local Abbreviation parse_pages := (parse_pages Date_parse).
Local Abbreviation parseStatement := (parseStatement Date_parse).
Local Abbreviation page_result := (page_result Date_parse).
Local Abbreviation date_parses := (date_parses Date_parse).

(** Every record of a page has a date that parses. *)
Lemma processPageContent_dates content pageNum res :
  processPageContent content pageNum = Ok res -> Forall date_parses res.
Proof.
  apply (processPageContent_inv Date_parse date_parses (fun _ => True)
           nonempty_values); auto using body_rows_nonempty.
  intros ty v Hv _ Hb.
  apply (new_transaction_fields Date_parse ty v Hv Hb).
Qed.

(** One iteration of the page loop. *)
Lemma parse_pages_cons doc i idxs results log :
  parse_pages doc (i :: idxs) results log =
    match page_result doc i with
    | Ok r =>
        parse_pages doc idxs (results ++ r)
          (log ++ [EvGetPage i; EvGetTextContent i])
    | Throw e =>
        (match getPage doc i with
         | Ok _ => log ++ [EvGetPage i; EvGetTextContent i]
         | Throw _ => log ++ [EvGetPage i]
         end, Throw e)
    end.
Proof.
  unfold page_result. simpl.
  unfold bind, await, lift.
  destruct (getPage doc i) as [page|e]; [|reflexivity].
  rewrite <- app_assoc. simpl.
  destruct (getTextContent page) as [content|e]; [|reflexivity].
  destruct (processPageContent content (i + 1)); reflexivity.
Qed.

Lemma parse_pages_ok doc idxs rs :
  Forall2 (fun i r => page_result doc i = Ok r) idxs rs ->
  forall results log,
    parse_pages doc idxs results log
    = (log ++ page_events idxs, Ok (results ++ concat rs)).
Proof.
  induction 1 as [|i r idxs rs Hi _ IH]; intros results log.
  - simpl. unfold ret, page_events. simpl. rewrite !app_nil_r. reflexivity.
  - rewrite parse_pages_cons, Hi, IH.
    unfold page_events. simpl. rewrite <- !app_assoc. reflexivity.
Qed.

Lemma parse_pages_inv doc idxs :
  forall results log log' res,
    parse_pages doc idxs results log = (log', Ok res) ->
    exists rs,
      Forall2 (fun i r => page_result doc i = Ok r) idxs rs
      /\ res = results ++ concat rs
      /\ log' = log ++ page_events idxs.
Proof.
  induction idxs as [|i idxs IH]; intros results log log' res.
  - simpl. unfold ret. intros [= <- <-]. exists [].
    unfold page_events. simpl. rewrite !app_nil_r. auto.
  - rewrite parse_pages_cons.
    destruct (page_result doc i) as [r|e] eqn:Hi; [|discriminate].
    intros H. apply IH in H as (rs & Hrs & -> & ->).
    exists (r :: rs). split; [constructor; assumption|].
    unfold page_events. simpl. rewrite <- !app_assoc. auto.
Qed.

(** What holds of the records of every page holds of the records of a
    document. *)
Section Records.

Variable P : Transaction -> Prop.
Hypothesis page_P :
  forall content pageNum res,
    processPageContent content pageNum = Ok res -> Forall P res.

Lemma page_result_Forall doc i r : page_result doc i = Ok r -> Forall P r.
Proof.
  unfold page_result.
  destruct (getPage doc i) as [page|]; [|discriminate].
  destruct (getTextContent page); [|discriminate].
  apply page_P.
Qed.

Lemma parseStatement_Forall doc log log' data :
  parseStatement doc log = (log', Ok data) -> Forall P data.
Proof.
  unfold parseStatement. intros H.
  apply parse_pages_inv in H as (rs & Hrs & -> & _). simpl.
  induction Hrs as [|i r idxs rs Hi _ IH]; simpl; [constructor|].
  apply Forall_app. split; [exact (page_result_Forall _ _ _ Hi) | exact IH].
Qed.

End Records.

(** The page that pdfjs returns for the number [S k] is the one at
    position [k] of the file. *)
Lemma page_result_pdfjs pages k :
  page_result (pdfjs_document pages) (S k) =
    match pages !! k with
    | Some c => processPageContent c (S k + 1)
    | None => Throw (Error "Invalid page request.")
    end.
Proof.
  unfold page_result. simpl. destruct (pages !! k); reflexivity.
Qed.

Lemma page_results_pdfjs pages cs rs :
  Forall2 (fun c r => processPageContent c 0 = Ok r) cs rs ->
  forall k,
    (forall j c, cs !! j = Some c -> pages !! (k + j) = Some c) ->
    Forall2 (fun i r => page_result (pdfjs_document pages) i = Ok r)
      (seq (S k) (length cs)) rs.
Proof.
  induction 1 as [|c r cs rs Hc _ IH]; intros k Hk; simpl; [constructor|].
  constructor.
  - rewrite page_result_pdfjs.
    specialize (Hk 0 c eq_refl). rewrite Nat.add_0_r in Hk. rewrite Hk.
    exact Hc.
  - apply IH. intros j c' Hj.
    replace (S k + j) with (k + S j) by lia. apply Hk. exact Hj.
Qed.

(** With the pdfjs document proxy, [parseStatement] reads the pages
    1 .. N-1 of a file of N pages, in this order: the first page is read,
    the last one is not. *)
Lemma parseStatement_pdfjs pages rs log :
  Forall2 (fun c r => processPageContent c 0 = Ok r)
    (take (length pages - 1) pages) rs ->
  parseStatement (pdfjs_document pages) log
  = (log ++ page_events (seq 1 (length pages - 1)), Ok (concat rs)).
Proof.
  intros H. unfold parseStatement.
  change (numPages (pdfjs_document pages)) with (length pages).
  rewrite (parse_pages_ok _ _ rs); [reflexivity|].
  apply page_results_pdfjs with (pages := pages) (k := 0) in H.
  - rewrite length_take, Nat.min_l in H by lia. exact H.
  - intros j c Hj. simpl. apply lookup_take_Some in Hj. tauto.
Qed.

End DocumentFacts.

(** ** The aggregator *)

Section AggregatorFacts.

Variable Date_parse : string -> jsnum.
Variable getDocument : jsarg -> result Doc.

Local Abbreviation parseStatement := (parseStatement Date_parse).
Local Abbreviation comparator := (comparator Date_parse).
Local Abbreviation parse_statements := (parse_statements Date_parse getDocument).
Local Abbreviation parse := (parse Date_parse getDocument).
Local Abbreviation document_data := (document_data Date_parse getDocument).
Local Abbreviation date_parses := (date_parses Date_parse).
Local Abbreviation time_value := (time_value Date_parse).
Local Abbreviation date_le := (date_le Date_parse).
Local Abbreviation has_date := (has_date Date_parse).

Lemma parse_statements_inv statements :
  forall results log log' res,
    parse_statements statements results log = (log', Ok res) ->
    exists datas,
      Forall2 document_data statements datas
      /\ res = results ++ concat datas.
Proof.
  induction statements as [|s rest IH]; intros results log log' res.
  - simpl. unfold ret. intros [= <- <-]. exists []. simpl.
    rewrite app_nil_r. auto.
  - simpl. unfold bind at 1, await.
    destruct (getDocument (read_slot s)) as [doc|e] eqn:Hdoc; [|discriminate].
    unfold bind.
    destruct (parseStatement doc (log ++ [EvGetDocument (read_slot s)]))
      as [log1 [data|e]] eqn:Hdata; [|discriminate].
    intros H. apply IH in H as (datas & Hdatas & ->).
    exists (data :: datas). split.
    + constructor; [|exact Hdatas]. exists doc. eauto.
    + simpl. rewrite app_assoc. reflexivity.
Qed.

Lemma document_data_Forall (P : Transaction -> Prop) statements datas :
  (forall content pageNum res,
      processPageContent Date_parse content pageNum = Ok res -> Forall P res) ->
  Forall2 document_data statements datas -> Forall P (concat datas).
Proof.
  intros page_P.
  induction 1 as [|s data ss datas (doc & l1 & l2 & _ & Hd) _ IH]; simpl;
    [constructor|].
  apply Forall_app. split; [|exact IH].
  exact (parseStatement_Forall Date_parse P page_P doc l1 l2 data Hd).
Qed.

(** A successful run: the sorted concatenation of the documents' data. *)
Lemma parse_inv src log log' res :
  parse src log = (log', Ok res) ->
  exists statements datas,
    validateInput src = Ok statements
    /\ Forall2 document_data statements datas
    /\ res = Array_sort comparator (concat datas).
Proof.
  unfold parse. unfold bind at 1, lift.
  destruct (validateInput src) as [statements|e] eqn:Hv; [|discriminate].
  unfold bind, ret.
  destruct (parse_statements statements [] log) as [log1 [results|e]] eqn:Hp;
    [|discriminate].
  intros [= <- <-].
  apply parse_statements_inv in Hp as (datas & Hdatas & ->). simpl.
  exists statements, datas. auto.
Qed.

(** What holds of the records of every page holds of the records that a
    run returns. *)
Lemma parse_Forall (P : Transaction -> Prop) src log log' res :
  (forall content pageNum res,
      processPageContent Date_parse content pageNum = Ok res -> Forall P res) ->
  parse src log = (log', Ok res) -> Forall P res.
Proof.
  intros page_P H.
  apply parse_inv in H as (statements & datas & _ & Hdatas & ->).
  rewrite Array_sort_Permutation.
  exact (document_data_Forall P _ _ page_P Hdatas).
Qed.

(** On records whose dates parse, the comparator is the difference of the
    time values. *)
Lemma comparator_time_value a b :
  date_parses a -> date_parses b ->
  SortCompare comparator a b = (time_value a - time_value b)%Z.
Proof.
  unfold date_parses, time_value,
    SortCompare, comparator, parsed_date.
  destruct (Date_parse_js Date_parse (Date a)); [discriminate|].
  destruct (Date_parse_js Date_parse (Date b)); [discriminate|].
  reflexivity.
Qed.

Lemma date_le_time_value a b :
  date_parses a -> date_parses b ->
  (time_value a <= time_value b)%Z -> date_le a b.
Proof.
  unfold date_parses, time_value,
    date_le.
  destruct (parsed_date Date_parse a); [discriminate|].
  destruct (parsed_date Date_parse b); [discriminate|].
  auto.
Qed.

Lemma has_date_time_value d t :
  date_parses t -> has_date d t = (time_value t =? d)%Z.
Proof.
  unfold date_parses, time_value,
    has_date.
  destruct (parsed_date Date_parse t); [discriminate | reflexivity].
Qed.

Lemma filter_has_date d l :
  Forall date_parses l ->
  List.filter (has_date d) l = List.filter (fun t => (time_value t =? d)%Z) l.
Proof.
  induction 1 as [|t l Ht _ IH]; [reflexivity|].
  simpl. rewrite IH, (has_date_time_value d t Ht). reflexivity.
Qed.

Lemma sorted_by_date l :
  Forall date_parses l ->
  Sorted (fun a b => (time_value a <= time_value b)%Z) l ->
  StronglySorted date_le l.
Proof.
  intros Hok Hs.
  apply Sorted_StronglySorted in Hs; [|intros x y z; simpl; lia].
  induction Hs as [|t l Hs IH Hall]; [constructor|].
  inversion Hok as [|? ? Ht Hl]; subst.
  constructor; [auto|].
  rewrite List.Forall_forall in *. intros u Hu.
  apply date_le_time_value; auto.
Qed.

(** The sort of [parse], on records whose dates parse. *)
Lemma Array_sort_by_date l :
  Forall date_parses l ->
  Permutation (Array_sort comparator l) l
  /\ StronglySorted date_le (Array_sort comparator l)
  /\ forall d, List.filter (has_date d) (Array_sort comparator l)
               = List.filter (has_date d) l.
Proof.
  intros Hok.
  pose proof (Array_sort_ok comparator date_parses l Hok) as Hok'.
  split; [apply Array_sort_Permutation|]. split.
  - apply sorted_by_date; [exact Hok'|].
    apply (Array_sort_Sorted comparator date_parses time_value
             comparator_time_value l Hok).
  - intros d. rewrite !filter_has_date by assumption.
    apply (Array_sort_filter comparator date_parses time_value
             comparator_time_value d l Hok).
Qed.

(** C7: a successful run returns the concatenation of the documents'
    transactions, in input order, sorted by parsed date in ascending order;
    the sort is stable: records with the same parsed date keep the order
    they have in the concatenation. *)
Theorem C7_sorted_by_date_stable src log log' res :
  parse src log = (log', Ok res) ->
  exists statements datas,
    validateInput src = Ok statements
    /\ Forall2 document_data statements datas
    /\ res = Array_sort comparator (concat datas)
    /\ Permutation res (concat datas)
    /\ StronglySorted date_le res
    /\ forall d, List.filter (has_date d) res
                 = List.filter (has_date d) (concat datas).
Proof.
  intros H. apply parse_inv in H as (statements & datas & Hv & Hdatas & ->).
  exists statements, datas.
  destruct (Array_sort_by_date (concat datas)
              (document_data_Forall date_parses _ _
                 (processPageContent_dates Date_parse) Hdatas))
    as (Hperm & Hsorted & Hstable).
  auto 10.
Qed.

(** C6: an argument that is neither a byte buffer nor a collection of byte
    buffers makes [parse] fail with a TypeError, and no call to the engine
    is made: the log of calls is the one [parse] started with. *)
Theorem C6_invalid_argument src log :
  valid_argument src = false ->
  exists msg, parse src log = (log, Throw (TypeError msg)).
Proof.
  unfold parse, bind, lift.
  destruct src as [data|elems|v]; simpl; [discriminate| |eauto].
  intros ->. simpl. eauto.
Qed.

End AggregatorFacts.

(** C3, as the code has it: in every record the parser produces, Date and
    Description are non-empty strings, and each of the daily-cash fields and
    Amount is a non-empty string or undefined; on a page, Type is a
    non-empty string or null when every single-column row of the page body
    has its value in bucket 7. *)
Theorem C3_transaction_fields (Date_parse : string -> jsnum) :
  (forall content pageNum res,
      processPageContent Date_parse content pageNum = Ok res ->
      Forall (fun t =>
                fields_text_or_undefined t = true
                /\ (single_columns_in_type_bucket (body_rows content) = true ->
                    is_text_or_null (Type_ t) = true)) res)
  /\ (forall getDocument src log log' res,
        parse Date_parse getDocument src log = (log', Ok res) ->
        Forall (fun t => fields_text_or_undefined t = true) res).
Proof.
  split.
  - apply processPageContent_fields.
  - intros getDocument src log log' res.
    apply parse_Forall. intros content pageNum r Hr.
    apply processPageContent_fields in Hr.
    eapply Forall_impl; [exact Hr|]. intros t [Ht _]. exact Ht.
Qed.

(** ** The parser on the sample pages *)

(** C1 fails on the code: the first two rows of [other_page] hold neither
    "Statement" nor "Apple Card Customer", and the page is parsed like a
    statement page all the same. *)
Theorem C1_header_texts_not_checked :
  map Object_values (take 2 (page_rows other_page))
  = [["Payment Information"]; ["Minimum Payment Due"]]
  /\ processPageContent Date_parse_mdy other_page 2 = Ok [coffee_transaction].
Proof. split; reflexivity. Qed.

(** C2 fails on the code: a row whose only column is a description in
    bucket 21 takes the type-marker branch. It closes the open transaction
    with its description as it was and sets the current type to undefined,
    which the next transaction of the page then carries. *)
Theorem C2_description_only_row_is_type_marker :
  (forall Date_parse st s,
      processRow Date_parse st [(21%Z, s)]
      = Ok {| results := push_pending st; row := None; type := JUndefined |})
  /\ processPageContent Date_parse_mdy coffee_store_page 2
     = Ok [coffee_transaction]
  /\ processPageContent Date_parse_mdy coffee_store_tea_page 2
     = Ok [coffee_transaction; tea_transaction].
Proof. repeat split; reflexivity. Qed.

(** C3 as stated fails: the record of the coffee page has undefined, not
    null, in its daily-cash fields. *)
Lemma C3_counterexample :
  processPageContent Date_parse_mdy coffee_page 2 = Ok [coffee_transaction]
  /\ fields_string_or_null coffee_transaction = false
  /\ Daily_Cash_pct coffee_transaction = JUndefined.
Proof. repeat split; reflexivity. Qed.

Lemma C3_witness :
  processPageContent Date_parse_mdy coffee_page 2 = Ok [coffee_transaction]
  /\ Forall (fun t =>
               fields_text_or_undefined t = true
               /\ (single_columns_in_type_bucket (body_rows coffee_page) = true ->
                   is_text_or_null (Type_ t) = true)) [coffee_transaction].
Proof.
  split; [reflexivity|].
  apply (proj1 (C3_transaction_fields Date_parse_mdy) coffee_page 2).
  reflexivity.
Defined.

(** C4 fails on the code with the pdfjs document proxy: of a file of two
    pages, whose second page holds a transaction, [parse] requests page
    number 1, the cover, and never page number 2. *)
Theorem C4_reads_first_page_not_last :
  numPages two_page_statement = 2
  /\ page_result Date_parse_mdy two_page_statement 2 = Ok [coffee_transaction]
  /\ parseStatement Date_parse_mdy two_page_statement []
     = ([EvGetPage 1; EvGetTextContent 1], Ok []).
Proof. repeat split; reflexivity. Qed.

Lemma C6_witness :
  valid_argument (JsArray [Some first_file; Some (Other (JString "statement.pdf"))]) = false
  /\ exists msg,
       parse Date_parse_mdy sample_getDocument
         (JsArray [Some first_file; Some (Other (JString "statement.pdf"))]) []
       = ([], Throw (TypeError msg)).
Proof.
  split; [reflexivity|].
  apply (C6_invalid_argument Date_parse_mdy sample_getDocument). reflexivity.
Defined.

Lemma C7_witness :
  parse Date_parse_mdy sample_getDocument (JsArray [Some first_file; Some second_file]) []
  = ([EvGetDocument first_file; EvGetPage 1; EvGetTextContent 1;
      EvGetPage 2; EvGetTextContent 2;
      EvGetDocument second_file; EvGetPage 1; EvGetTextContent 1;
      EvGetPage 2; EvGetTextContent 2],
     Ok [january_2_transaction; january_5_transaction])
  /\ exists statements datas,
       validateInput (JsArray [Some first_file; Some second_file]) = Ok statements
       /\ Forall2 (document_data Date_parse_mdy sample_getDocument) statements datas
       /\ [january_2_transaction; january_5_transaction]
          = Array_sort (comparator Date_parse_mdy) (concat datas)
       /\ Permutation [january_2_transaction; january_5_transaction] (concat datas)
       /\ StronglySorted (date_le Date_parse_mdy)
            [january_2_transaction; january_5_transaction]
       /\ forall d,
            List.filter (has_date Date_parse_mdy d)
              [january_2_transaction; january_5_transaction]
            = List.filter (has_date Date_parse_mdy d) (concat datas).
Proof.
  split; [reflexivity|].
  apply (C7_sorted_by_date_stable Date_parse_mdy sample_getDocument
           (JsArray [Some first_file; Some second_file]) []
           [EvGetDocument first_file; EvGetPage 1; EvGetTextContent 1;
            EvGetPage 2; EvGetTextContent 2;
            EvGetDocument second_file; EvGetPage 1; EvGetTextContent 1;
            EvGetPage 2; EvGetTextContent 2]
           [january_2_transaction; january_5_transaction]).
  reflexivity.
Defined.

Lemma C8_witness :
  isNaN (Date_parse_js Date_parse_mdy (js_or (prop coffee_row 9) (prop coffee_row 7)))
  = false
  /\ truthy (prop coffee_row 21) = true
  /\ exists t,
       processRow Date_parse_mdy purchases_state coffee_row
       = Ok {| results := []; row := Some t; type := JString "Purchases" |}
       /\ picks [9; 7]%Z coffee_row (Date t)
       /\ Type_ t = JString "Purchases"
       /\ Description t = prop coffee_row 21
       /\ picks [85; 83]%Z coffee_row (Daily_Cash_pct t)
       /\ picks [89]%Z coffee_row (Daily_Cash_usd t)
       /\ picks [111; 110; 109; 108; 107]%Z coffee_row (Amount t).
Proof.
  split; [reflexivity|]. split; [reflexivity|].
  apply (C8_new_transaction_fields Date_parse_mdy purchases_state coffee_row);
    reflexivity.
Defined.

Lemma C9_witness :
  length (page_rows two_row_page) < 3
  /\ processPageContent Date_parse_mdy two_row_page 1 = Ok [].
Proof.
  split; [vm_compute; lia|].
  apply (C9_fewer_than_three_rows Date_parse_mdy two_row_page 1).
  vm_compute. lia.
Defined.

(** C10 as stated fails: the only row of [date_only_page] has one column,
    and it is not handled by the type-marker branch. *)
Lemma C10_counterexample :
  page_rows date_only_page = [date_only_row]
  /\ ~ single_column_is_type_marker Date_parse_mdy date_only_row.
Proof.
  split; [reflexivity|].
  unfold single_column_is_type_marker. intros H.
  specialize (H eq_refl). discriminate H.
Qed.

Lemma C10_witness :
  length (Object_keys date_only_row) = 1
  /\ isNaN (Date_parse_js Date_parse_mdy (prop date_only_row 7)) = false
  /\ (exists s, date_only_row = [(7%Z, s)] /\ isNaN (Date_parse_mdy s) = false)
  /\ row_branch Date_parse_mdy date_only_row = MissingDescription
  /\ (forall st, processRow Date_parse_mdy st date_only_row = Ok st).
Proof.
  split; [reflexivity|]. split; [reflexivity|].
  apply (proj2 (proj1 (C10_continuation_branch_unreachable Date_parse_mdy
                         date_only_row) eq_refl)).
  reflexivity.
Defined.

(** * Further properties of the code *)

(** ** [reverse] *)

(** X1: [reverse] returns the elements of the array in the opposite order,
    for arrays of every length. *)
Theorem X1_reverse_is_rev {A} (arr : list A) : reverse arr = rev arr.
Proof.
  unfold reverse.
  pose proof (reverse_loop_middle (length arr) arr [] []) as H.
  simpl in H. rewrite !app_nil_r, Nat.add_0_r in H.
  apply H; lia.
Qed.

(** X2: reversing twice gives the array back, and [reverse] keeps the
    length. *)
Theorem X2_reverse_involutive {A} (arr : list A) :
  reverse (reverse arr) = arr /\ length (reverse arr) = length arr.
Proof.
  rewrite !reverse_rev. split; [apply rev_involutive | apply length_rev].
Qed.

(** ** Objects: assignment and enumeration order *)

Section ObjectOrder.
Context {V : Type}.
Implicit Types (o : jsobj V) (k : Z) (v : V).

Lemma obj_get_update_ne k k' v o :
  k <> k' -> obj_get (obj_update k v o) k' = obj_get o k'.
Proof.
  intros Hne. induction o as [|[k0 v0] o IH]; simpl; [reflexivity|].
  destruct (k0 =? k)%Z eqn:E; simpl.
  - apply Z.eqb_eq in E. subst k0.
    destruct (k =? k')%Z eqn:E'; [apply Z.eqb_eq in E'; congruence | reflexivity].
  - rewrite IH. reflexivity.
Qed.

Lemma obj_get_add_index_ne k k' v o :
  k <> k' -> obj_get (obj_add_index k v o) k' = obj_get o k'.
Proof.
  intros Hne. induction o as [|[k0 v0] o IH]; simpl.
  - destruct (k =? k')%Z eqn:E'; [apply Z.eqb_eq in E'; congruence | reflexivity].
  - destruct (is_array_index k0 && (k0 <? k)%Z); simpl.
    + rewrite IH. reflexivity.
    + destruct (k =? k')%Z eqn:E'; [apply Z.eqb_eq in E'; congruence | reflexivity].
Qed.

Lemma obj_get_app_ne k k' v o :
  k <> k' -> obj_get (o ++ [(k, v)]) k' = obj_get o k'.
Proof.
  intros Hne. induction o as [|[k0 v0] o IH]; simpl.
  - destruct (k =? k')%Z eqn:E'; [apply Z.eqb_eq in E'; congruence | reflexivity].
  - rewrite IH. reflexivity.
Qed.

(** Assignment to one key leaves the other keys as they are. *)
Lemma obj_get_set_ne k k' v o :
  k <> k' -> obj_get (obj_set k v o) k' = obj_get o k'.
Proof.
  intros Hne. unfold obj_set. destruct (obj_get o k).
  - apply obj_get_update_ne, Hne.
  - destruct (is_array_index k);
      [apply obj_get_add_index_ne | apply obj_get_app_ne]; exact Hne.
Qed.

Lemma obj_update_update k v v' o :
  obj_update k v' (obj_update k v o) = obj_update k v' o.
Proof.
  induction o as [|[k0 v0] o IH]; simpl; [reflexivity|].
  destruct (k0 =? k)%Z eqn:E; simpl.
  - rewrite Z.eqb_refl. reflexivity.
  - rewrite E, IH. reflexivity.
Qed.

Lemma obj_update_add_index k v v' o :
  obj_get o k = None ->
  obj_update k v' (obj_add_index k v o) = obj_add_index k v' o.
Proof.
  induction o as [|[k0 v0] o IH]; simpl.
  - rewrite Z.eqb_refl. reflexivity.
  - destruct (k0 =? k)%Z eqn:E; [discriminate|]. intros Hn.
    destruct (is_array_index k0 && (k0 <? k)%Z); simpl.
    + rewrite E, IH by exact Hn. reflexivity.
    + rewrite Z.eqb_refl. reflexivity.
Qed.

Lemma obj_update_app k v v' o :
  obj_get o k = None ->
  obj_update k v' (o ++ [(k, v)]) = o ++ [(k, v')].
Proof.
  induction o as [|[k0 v0] o IH]; simpl.
  - rewrite Z.eqb_refl. reflexivity.
  - destruct (k0 =? k)%Z eqn:E; [discriminate|]. intros Hn.
    rewrite IH by exact Hn. reflexivity.
Qed.

(** A second assignment to the same key replaces the first. *)
Lemma obj_set_set k v v' o : obj_set k v' (obj_set k v o) = obj_set k v' o.
Proof.
  unfold obj_set at 1. rewrite obj_get_set_eq.
  unfold obj_set. destruct (obj_get o k) eqn:E.
  - apply obj_update_update.
  - destruct (is_array_index k);
      [apply obj_update_add_index | apply obj_update_app]; exact E.
Qed.

Lemma Object_keys_update k v o :
  Object_keys (obj_update k v o) = Object_keys o.
Proof.
  unfold Object_keys. induction o as [|[k0 v0] o IH]; simpl; [reflexivity|].
  destruct (k0 =? k)%Z eqn:E; simpl.
  - apply Z.eqb_eq in E. subst. reflexivity.
  - rewrite IH. reflexivity.
Qed.

Lemma obj_get_None_keys k o : obj_get o k = None -> ~ In k (Object_keys o).
Proof.
  unfold Object_keys. induction o as [|[k0 v0] o IH]; simpl; [tauto|].
  destruct (k0 =? k)%Z eqn:E; [discriminate|].
  apply Z.eqb_neq in E. intros Hn [H|H]; [congruence | exact (IH Hn H)].
Qed.

Lemma index_sorted_add_index k v o :
  is_array_index k = true -> obj_get o k = None ->
  index_sorted o -> index_sorted (obj_add_index k v o).
Proof.
  intros Hk. unfold index_sorted, Object_keys.
  induction o as [|[k0 v0] o IH]; simpl; intros Hn [Hidx Hs].
  - split; repeat constructor; exact Hk.
  - destruct (k0 =? k)%Z eqn:E; [discriminate|]. apply Z.eqb_neq in E.
    inversion Hidx as [|? ? Hk0 Hidx']; subst.
    inversion Hs as [|? ? Hs' Hhd]; subst.
    rewrite Hk0. simpl.
    destruct (k0 <? k)%Z eqn:Hlt; simpl.
    + apply Z.ltb_lt in Hlt.
      destruct (IH Hn (conj Hidx' Hs')) as [Hidx2 Hs2].
      split; [constructor; assumption|].
      constructor; [exact Hs2|].
      destruct o as [|[k1 v1] o]; simpl in *; [constructor; exact Hlt|].
      inversion Hhd; subst.
      destruct (is_array_index k1 && (k1 <? k)%Z); simpl; constructor; assumption.
    + apply Z.ltb_ge in Hlt.
      split; [constructor; [exact Hk | constructor; assumption]|].
      constructor; [constructor; assumption|]. constructor. lia.
Qed.

(** With array-index keys only, the enumeration order is the ascending
    order of the keys, whatever the order of the assignments. *)
Lemma index_sorted_set k v o :
  is_array_index k = true -> index_sorted o -> index_sorted (obj_set k v o).
Proof.
  intros Hk Ho. unfold obj_set. destruct (obj_get o k) eqn:E.
  - unfold index_sorted. rewrite Object_keys_update. exact Ho.
  - rewrite Hk. apply index_sorted_add_index; assumption.
Qed.

Lemma obj_set_not_nil k v o : obj_set k v o <> [].
Proof.
  intros H. pose proof (obj_get_set_eq k v o) as Hg.
  rewrite H in Hg. discriminate.
Qed.

End ObjectOrder.

(** ** The grouping loop of [processPageContent] *)

Lemma group_item_blank o item : nonblank item = false -> group_item o item = o.
Proof.
  unfold nonblank, group_item. intros H. apply negb_false_iff in H.
  rewrite H. reflexivity.
Qed.

(** A non-blank item is one assignment to the row of its key. *)
Lemma group_item_nonblank o item :
  nonblank item = true ->
  group_item o item
  = obj_set (item_y item)
      (obj_set (item_x item) (trim (str item))
         (match obj_get o (item_y item) with Some r => r | None => [] end))
      o.
Proof.
  unfold nonblank, group_item, item_x, item_y. intros H.
  apply negb_true_iff in H. rewrite H.
  destruct (obj_get o (Math_round (transform5 item))) as [r|] eqn:E.
  - rewrite E. reflexivity.
  - rewrite obj_get_set_eq, obj_set_set. reflexivity.
Qed.

Lemma group_items_app its its' :
  group_items (its ++ its') = fold_left group_item its' (group_items its).
Proof. unfold group_items. apply fold_left_app. Qed.

(** X3: items whose text is empty after [trim] leave no trace in the
    grouping: the rows are those of the page without these items. *)
Theorem X3_blank_items_ignored (its : list Item) :
  group_items its = group_items (List.filter nonblank its).
Proof.
  unfold group_items. generalize (@nil (Z * Row)).
  induction its as [|item its IH]; intros o; simpl; [reflexivity|].
  destruct (nonblank item) eqn:E; simpl.
  - apply IH.
  - rewrite group_item_blank by exact E. apply IH.
Qed.

Lemma cell_group_item o item y x :
  cell (group_item o item) y x =
    if nonblank item && (item_y item =? y)%Z && (item_x item =? x)%Z
    then Some (trim (str item))
    else cell o y x.
Proof.
  destruct (nonblank item) eqn:Hnb; simpl;
    [|rewrite group_item_blank by exact Hnb; reflexivity].
  rewrite group_item_nonblank by exact Hnb. unfold cell.
  destruct (item_y item =? y)%Z eqn:Ey; simpl.
  - apply Z.eqb_eq in Ey. subst y. rewrite obj_get_set_eq.
    destruct (item_x item =? x)%Z eqn:Ex.
    + apply Z.eqb_eq in Ex. subst x. apply obj_get_set_eq.
    + apply Z.eqb_neq in Ex. rewrite obj_get_set_ne by exact Ex.
      destruct (obj_get o (item_y item)); reflexivity.
  - apply Z.eqb_neq in Ey. rewrite obj_get_set_ne by exact Ey. reflexivity.
Qed.

Lemma cell_fold_group_item its :
  forall o y x,
    cell (fold_left group_item its o) y x =
      match last_text its y x with
      | Some s => Some s
      | None => cell o y x
      end.
Proof.
  induction its as [|item its IH]; intros o y x; simpl; [reflexivity|].
  rewrite IH. destruct (last_text its y x); [reflexivity|].
  rewrite cell_group_item.
  destruct (nonblank item && (item_y item =? y)%Z && (item_x item =? x)%Z);
    reflexivity.
Qed.

Lemma cell_group_items (its : list Item) (y x : Z) :
  cell (group_items its) y x = last_text its y x.
Proof.
  unfold group_items. rewrite cell_fold_group_item.
  destruct (last_text its y x); reflexivity.
Qed.

(** X4: the cell of the grouping at a row key and a column bucket holds the
    trimmed text of the last non-blank item with this key and this bucket
    (a later item overwrites an earlier one), and the cell is absent when
    there is no such item. *)
Theorem X4_cell_is_last_item (its : list Item) (y x : Z) :
  cell (group_items its) y x = last_text its y x.
Proof.
  unfold group_items. rewrite cell_fold_group_item.
  destruct (last_text its y x); reflexivity.
Qed.

Lemma group_item_rows_not_nil o item :
  all_values (fun r : Row => r <> []) o ->
  all_values (fun r : Row => r <> []) (group_item o item).
Proof.
  intros Ho. destruct (nonblank item) eqn:Hnb.
  - rewrite group_item_nonblank by exact Hnb.
    apply all_values_set; [apply obj_set_not_nil | exact Ho].
  - rewrite group_item_blank by exact Hnb. exact Ho.
Qed.

Lemma group_items_rows_not_nil its :
  all_values (fun r : Row => r <> []) (group_items its).
Proof.
  unfold group_items.
  assert (H : all_values (fun r : Row => r <> []) (@nil (Z * Row)))
    by constructor.
  revert H. generalize (@nil (Z * Row)).
  induction its as [|item its IH]; intros o Ho; simpl; [exact Ho|].
  apply IH, group_item_rows_not_nil, Ho.
Qed.

(** X5: every row of a page has at least one cell, and every cell holds a
    non-empty text. *)
Theorem X5_rows_have_text (content : Content) :
  Forall (fun r : Row => 0 < length r /\ Forall (fun kv => snd kv <> "") r)
    (page_rows content).
Proof.
  pose proof (page_rows_nonempty content) as Hcells.
  assert (Hrows : Forall (fun r : Row => r <> []) (page_rows content)).
  { unfold page_rows. rewrite reverse_rev.
    apply Forall_rev, all_values_Object_values, group_items_rows_not_nil. }
  rewrite List.Forall_forall in *. intros r Hr. split.
  - specialize (Hrows r Hr). destruct r; [congruence | simpl; lia].
  - exact (Hcells r Hr).
Qed.

(** *** Order of the rows and of the cells *)

Lemma group_item_index_sorted o item :
  (nonblank item = true -> is_array_index (item_y item) = true) ->
  index_sorted o -> index_sorted (group_item o item).
Proof.
  intros Hy Ho. destruct (nonblank item) eqn:Hnb.
  - rewrite group_item_nonblank by exact Hnb.
    apply index_sorted_set; auto.
  - rewrite group_item_blank by exact Hnb. exact Ho.
Qed.

Lemma group_items_index_sorted its :
  Forall (fun item => nonblank item = true ->
                      is_array_index (item_y item) = true) its ->
  index_sorted (group_items its).
Proof.
  unfold group_items.
  assert (H : index_sorted (@nil (Z * Row))) by (split; constructor).
  revert H. generalize (@nil (Z * Row)).
  induction its as [|item its IH]; intros o Ho Hits; simpl; [exact Ho|].
  inversion Hits; subst.
  apply IH; [apply group_item_index_sorted|]; assumption.
Qed.

Lemma group_item_cells_sorted o item :
  (nonblank item = true -> is_array_index (item_x item) = true) ->
  all_values (fun r : Row => index_sorted r) o ->
  all_values (fun r : Row => index_sorted r) (group_item o item).
Proof.
  intros Hx Ho. destruct (nonblank item) eqn:Hnb.
  - rewrite group_item_nonblank by exact Hnb.
    apply all_values_set; [|exact Ho].
    apply index_sorted_set; [auto|].
    destruct (obj_get o (item_y item)) as [r|] eqn:E.
    + exact (all_values_get _ _ _ _ Ho E).
    + split; constructor.
  - rewrite group_item_blank by exact Hnb. exact Ho.
Qed.

Lemma group_items_cells_sorted its :
  Forall (fun item => nonblank item = true ->
                      is_array_index (item_x item) = true) its ->
  all_values (fun r : Row => index_sorted r) (group_items its).
Proof.
  unfold group_items.
  assert (H : all_values (fun r : Row => index_sorted r) (@nil (Z * Row)))
    by constructor.
  revert H. generalize (@nil (Z * Row)).
  induction its as [|item its IH]; intros o Ho Hits; simpl; [exact Ho|].
  inversion Hits; subst.
  apply IH; [apply group_item_cells_sorted|]; assumption.
Qed.

Lemma StronglySorted_snoc {A} (R : A -> A -> Prop) (l : list A) (k : A) :
  StronglySorted R l -> Forall (fun a => R a k) l ->
  StronglySorted R (l ++ [k]).
Proof.
  induction 1 as [|a l Hs IH Hall]; intros Hk; simpl.
  - repeat constructor.
  - inversion Hk; subst. constructor; [auto|].
    apply Forall_app. split; [exact Hall | repeat constructor; assumption].
Qed.

Lemma Sorted_lt_rev_gt (l : list Z) :
  Sorted Z.lt l -> StronglySorted Z.gt (rev l).
Proof.
  intros Hs. apply Sorted_StronglySorted in Hs; [|intros x y z; lia].
  induction Hs as [|k l Hs IH Hall]; simpl; [constructor|].
  apply StronglySorted_snoc; [exact IH|].
  apply Forall_rev. revert Hall. apply List.Forall_impl. intros a Ha. lia.
Qed.

(** X6: when the row key of every non-blank item is an array index (a
    coordinate that rounds to 0 or more), the rows of the page come in
    strictly descending order of their keys, whatever the order of the
    items; [page_row_keys] lists the keys of [page_rows] row by row. *)
Theorem X6_rows_in_descending_key_order (content : Content) :
  Forall (fun item => nonblank item = true ->
                      is_array_index (item_y item) = true) (items content) ->
  StronglySorted Z.gt (page_row_keys content)
  /\ combine (page_row_keys content) (page_rows content)
     = rev (group_items (items content)).
Proof.
  intros Hits. unfold page_row_keys, page_rows. rewrite !reverse_rev. split.
  - apply Sorted_lt_rev_gt. exact (proj2 (group_items_index_sorted _ Hits)).
  - unfold Object_keys, Object_values. rewrite <- !map_rev.
    generalize (rev (group_items (items content))).
    intros l. induction l as [|[k r] l IH]; simpl; [reflexivity|].
    rewrite IH. reflexivity.
Qed.

(** X7: when the column bucket of every non-blank item is an array index,
    the cells of every row are enumerated in ascending order of their
    buckets, so that the first value of a row is its leftmost text. *)
Theorem X7_cells_in_ascending_bucket_order (content : Content) :
  Forall (fun item => nonblank item = true ->
                      is_array_index (item_x item) = true) (items content) ->
  Forall (fun r : Row => StronglySorted Z.lt (Object_keys r)) (page_rows content).
Proof.
  intros Hits. unfold page_rows. rewrite reverse_rev.
  apply Forall_rev.
  pose proof (all_values_Object_values _ _ (group_items_cells_sorted _ Hits)) as H.
  revert H. apply List.Forall_impl. intros r [_ Hs].
  apply Sorted_StronglySorted in Hs; [exact Hs | intros x y z; lia].
Qed.

(** *** Column buckets *)

Lemma Qfloor_unique (x : Q) (k : Z) :
  (inject_Z k <= x)%Q -> (x < inject_Z (k + 1))%Q -> Qfloor x = k.
Proof.
  intros Hle Hlt.
  pose proof (Qfloor_le x) as H1. pose proof (Qlt_floor x) as H2.
  assert (Ha : (inject_Z k < inject_Z (Qfloor x + 1))%Q)
    by (eapply Qle_lt_trans; eauto).
  assert (Hb : (inject_Z (Qfloor x) < inject_Z (k + 1))%Q)
    by (eapply Qle_lt_trans; eauto).
  rewrite <- Zlt_Qlt in Ha, Hb. lia.
Qed.

(** X8: the column bucket of an item is [k] exactly when its horizontal
    position lies in the interval of width 5 around [5 * k], lower end
    included and upper end excluded. *)
Theorem X8_bucket_interval (item : Item) (k : Z) :
  item_x item = k
  <-> (inject_Z (5 * k) - (5 # 2) <= transform4 item)%Q
      /\ (transform4 item < inject_Z (5 * k) + (5 # 2))%Q.
Proof.
  unfold item_x, Math_round. generalize (transform4 item). intros q.
  rewrite inject_Z_mult. change (inject_Z 5) with 5%Q.
  assert (E : (q / 5 == q * (1 # 5))%Q) by (unfold Qdiv; reflexivity).
  split.
  - intros <-.
    pose proof (Qfloor_le (q / 5 + (1 # 2))) as H1.
    pose proof (Qlt_floor (q / 5 + (1 # 2))) as H2.
    rewrite inject_Z_plus in H2. change (inject_Z 1) with 1%Q in H2.
    set (f := inject_Z (Qfloor (q / 5 + (1 # 2)))) in *.
    rewrite E in H1, H2. split; lra.
  - intros [H1 H2]. apply Qfloor_unique.
    + rewrite E. lra.
    + rewrite E, inject_Z_plus. change (inject_Z 1) with 1%Q. lra.
Qed.

(** ** The row loop of [processPageContent] *)

Section RowLoop.

Variable Date_parse : string -> jsnum.

Local Abbreviation processRow := (processRow Date_parse).
Local Abbreviation row_branch := (row_branch Date_parse).
Local Abbreviation process_rows := (process_rows Date_parse).
Local Abbreviation processPageContent := (processPageContent Date_parse).
Local Abbreviation transactions_of := (transactions_of Date_parse).

(** The loop keeps, in [push_pending], the records of the rows read so
    far. *)
Lemma process_rows_transactions rows :
  forall st,
  exists st',
    process_rows rows st = Ok st'
    /\ push_pending st' = push_pending st ++ transactions_of rows (type st).
Proof.
  induction rows as [|v rows IH]; intros st; simpl.
  - exists st. rewrite app_nil_r. auto.
  - rewrite processRow_branch.
    pose proof (row_branch_not_continuation Date_parse v) as Hnc.
    destruct (row_branch v) eqn:Hb; simpl; try congruence.
    + destruct (IH {| results := push_pending st; row := None;
                      type := prop v 7 |}) as (st' & -> & Hp).
      exists st'. split; [reflexivity|]. exact Hp.
    + apply IH.
    + apply IH.
    + destruct (IH {| results := push_pending st;
                      row := Some (new_transaction (type st) v);
                      type := type st |}) as (st' & -> & Hp).
      exists st'. split; [reflexivity|]. rewrite Hp.
      unfold push_pending at 1. simpl. rewrite <- app_assoc. reflexivity.
Qed.

(** X9: the page parser throws for the pages with exactly three rows, a
    TypeError, and returns a list for every other page. *)
Theorem X9_throws_only_on_three_rows content pageNum :
  (length (page_rows content) = 3 ->
   processPageContent content pageNum = Throw not_an_object)
  /\ (length (page_rows content) <> 3 ->
      exists res, processPageContent content pageNum = Ok res).
Proof.
  rewrite processPageContent_by_rows. split.
  - intros ->. reflexivity.
  - intros Hne. destruct (length (page_rows content) <? 3); [eauto|].
    apply Nat.eqb_neq in Hne. rewrite Hne.
    destruct (process_rows_returns Date_parse (body_rows content) init_state)
      as [st ->]. eauto.
Qed.

(** X10: a page with four or five rows has no body row left between its
    header and its footer, and yields the empty list. *)
Theorem X10_four_or_five_rows content pageNum :
  4 <= length (page_rows content) <= 5 ->
  processPageContent content pageNum = Ok [].
Proof.
  intros [H4 H5]. rewrite processPageContent_by_rows.
  replace (length (page_rows content) <? 3) with false
    by (symmetry; apply Nat.ltb_ge; lia).
  replace (length (page_rows content) =? 3) with false
    by (symmetry; apply Nat.eqb_neq; lia).
  assert (Hb : body_rows content = []).
  { unfold body_rows. apply length_zero_iff_nil.
    rewrite length_drop, length_take. lia. }
  rewrite Hb. reflexivity.
Qed.

(** X11: for a page with at least four rows, the result is the list of the
    records of its body rows, read row by row from the top: one record for
    each new-transaction row, in row order, with the type of the latest
    single-column marker row above it, or null when there is none. The
    header and footer rows do not enter the result. *)
Theorem X11_records_row_by_row content pageNum :
  4 <= length (page_rows content) ->
  processPageContent content pageNum
  = Ok (transactions_of (body_rows content) JNull).
Proof.
  intros H4. rewrite processPageContent_by_rows.
  replace (length (page_rows content) <? 3) with false
    by (symmetry; apply Nat.ltb_ge; lia).
  replace (length (page_rows content) =? 3) with false
    by (symmetry; apply Nat.eqb_neq; lia).
  destruct (process_rows_transactions (body_rows content) init_state)
    as (st & -> & Hp).
  rewrite Hp. reflexivity.
Qed.

End RowLoop.

Lemma X10_witness :
  4 <= length (page_rows four_row_page) <= 5
  /\ processPageContent Date_parse_mdy four_row_page 2 = Ok [].
Proof.
  split; [vm_compute; lia|].
  apply (X10_four_or_five_rows Date_parse_mdy four_row_page 2).
  vm_compute. lia.
Defined.

Lemma X11_witness :
  4 <= length (page_rows coffee_store_tea_page)
  /\ processPageContent Date_parse_mdy coffee_store_tea_page 2
     = Ok (transactions_of Date_parse_mdy (body_rows coffee_store_tea_page) JNull).
Proof.
  split; [vm_compute; lia|].
  apply (X11_records_row_by_row Date_parse_mdy coffee_store_tea_page 2).
  vm_compute. lia.
Defined.

(** ** The page loop of [parseStatement] *)

Section PageLoop.

Variable Date_parse : string -> jsnum.

Local Abbreviation parse_pages := (parse_pages Date_parse).
Local Abbreviation parseStatement := (parseStatement Date_parse).
Local Abbreviation page_result := (page_result Date_parse).

(** The loop over [a ++ b] is the loop over [a], then the loop over [b]
    unless a page of [a] failed. *)
Lemma parse_pages_app doc a b :
  forall results log,
    parse_pages doc (a ++ b) results log =
      match parse_pages doc a results log with
      | (log1, Ok r1) => parse_pages doc b r1 log1
      | (log1, Throw e) => (log1, Throw e)
      end.
Proof.
  induction a as [|i a IH]; intros results log; [reflexivity|].
  rewrite <- app_comm_cons, !parse_pages_cons.
  destruct (page_result doc i); [apply IH | reflexivity].
Qed.

(** X12: for a document with no page or with one page, no page is
    requested and the result is the empty list. *)
Theorem X12_at_most_one_page doc log :
  numPages doc <= 1 -> parseStatement doc log = (log, Ok []).
Proof.
  intros H. unfold parseStatement.
  replace (numPages doc - 1) with 0 by lia. reflexivity.
Qed.

(** X13: when every requested page resolves and parses, the calls to the
    document are [getPage(1)], [getTextContent], ..., [getPage(N-1)],
    [getTextContent], in this order, where N is [numPages]; the result is
    the concatenation of the pages' records in the same order. *)
Theorem X13_pages_in_order doc rs log :
  Forall2 (fun i r => page_result doc i = Ok r) (seq 1 (numPages doc - 1)) rs ->
  parseStatement doc log
  = (log ++ page_events (seq 1 (numPages doc - 1)), Ok (concat rs)).
Proof.
  intros H. unfold parseStatement.
  rewrite (parse_pages_ok Date_parse doc _ rs H). reflexivity.
Qed.

(** X14: when the page requested with the index [i] fails (its retrieval,
    its text content, or its parsing), [parseStatement] fails with the same
    error: the records of the pages before it are not returned and no page
    after it is requested. *)
Theorem X14_page_failure_is_fatal doc i rs e log :
  1 <= i < numPages doc ->
  Forall2 (fun j r => page_result doc j = Ok r) (seq 1 (i - 1)) rs ->
  page_result doc i = Throw e ->
  exists evs,
    parseStatement doc log = (log ++ page_events (seq 1 (i - 1)) ++ evs, Throw e)
    /\ (evs = [EvGetPage i] \/ evs = [EvGetPage i; EvGetTextContent i]).
Proof.
  intros Hi Hrs He. unfold parseStatement.
  replace (numPages doc - 1) with ((i - 1) + S (numPages doc - 1 - i)) by lia.
  rewrite seq_app. cbn [seq].
  replace (1 + (i - 1)) with i by lia.
  rewrite parse_pages_app, (parse_pages_ok Date_parse doc _ rs Hrs).
  rewrite parse_pages_cons, He.
  destruct (getPage doc i).
  - exists [EvGetPage i; EvGetTextContent i].
    rewrite <- app_assoc. auto.
  - exists [EvGetPage i]. rewrite <- app_assoc. auto.
Qed.


End PageLoop.

Lemma X12_witness :
  numPages (pdfjs_document [coffee_page]) <= 1
  /\ parseStatement Date_parse_mdy (pdfjs_document [coffee_page]) [] = ([], Ok []).
Proof.
  split; [vm_compute; lia|].
  apply (X12_at_most_one_page Date_parse_mdy (pdfjs_document [coffee_page]) []).
  vm_compute. lia.
Defined.

Lemma X13_witness :
  parseStatement Date_parse_mdy
    (pdfjs_document [cover_page; january_5_page; cover_page]) []
  = ([EvGetPage 1; EvGetTextContent 1; EvGetPage 2; EvGetTextContent 2],
     Ok [january_5_transaction]).
Proof.
  apply (X13_pages_in_order Date_parse_mdy
           (pdfjs_document [cover_page; january_5_page; cover_page])
           [[]; [january_5_transaction]] []).
  repeat constructor.
Defined.

Lemma X14_witness :
  exists evs,
    parseStatement Date_parse_mdy broken_second_page []
    = ([] ++ page_events (seq 1 (2 - 1)) ++ evs, Throw (Error "Missing PDF data."))
    /\ (evs = [EvGetPage 2] \/ evs = [EvGetPage 2; EvGetTextContent 2]).
Proof.
  apply (X14_page_failure_is_fatal Date_parse_mdy broken_second_page 2
           [[coffee_transaction]] (Error "Missing PDF data.") []).
  - vm_compute. lia.
  - repeat constructor.
  - reflexivity.
Defined.

(** ** The statement loop of [parse] *)

Section StatementLoop.

Variable Date_parse : string -> jsnum.
Variable getDocument : jsarg -> result Doc.

Local Abbreviation parseStatement := (parseStatement Date_parse).
Local Abbreviation comparator := (comparator Date_parse).
Local Abbreviation parse_statements := (parse_statements Date_parse getDocument).
Local Abbreviation process_statement := (process_statement Date_parse getDocument).
Local Abbreviation parse := (parse Date_parse getDocument).
Local Abbreviation document_events := (document_events getDocument).
Local Abbreviation date_parses := (date_parses Date_parse).
Local Abbreviation time_value := (time_value Date_parse).

(** One iteration of the statement loop. *)
Lemma parse_statements_cons s rest results log :
  parse_statements (s :: rest) results log =
    match process_statement s log with
    | (log1, Ok data) => parse_statements rest (results ++ data) log1
    | (log1, Throw e) => (log1, Throw e)
    end.
Proof.
  simpl. unfold process_statement, bind at 1 3, await.
  destruct (getDocument (read_slot s)) as [doc|e]; [|reflexivity].
  unfold bind. destruct (parseStatement doc (log ++ [EvGetDocument (read_slot s)]))
    as [log1 [data|e]]; reflexivity.
Qed.

Lemma parse_statements_app a b :
  forall results log,
    parse_statements (a ++ b) results log =
      match parse_statements a results log with
      | (log1, Ok r1) => parse_statements b r1 log1
      | (log1, Throw e) => (log1, Throw e)
      end.
Proof.
  induction a as [|s a IH]; intros results log; [reflexivity|].
  rewrite <- app_comm_cons, !parse_statements_cons.
  destruct (process_statement s log) as [log1 [data|e]];
    [apply IH | reflexivity].
Qed.







Lemma parse_statements_events statements :
  forall results log log' res,
    parse_statements statements results log = (log', Ok res) ->
    log' = log ++ flat_map document_events statements.
Proof.
  induction statements as [|s rest IH]; intros results log log' res.
  - simpl. unfold ret. intros [= <- _]. rewrite app_nil_r. reflexivity.
  - rewrite parse_statements_cons.
    cbn [flat_map].
    assert (Hev : document_events s =
                  match getDocument (read_slot s) with
                  | Ok doc => EvGetDocument (read_slot s) :: page_events (seq 1 (numPages doc - 1))
                  | Throw _ => [EvGetDocument (read_slot s)]
                  end) by reflexivity.
    rewrite Hev. clear Hev.
    unfold process_statement, bind, await.
    destruct (getDocument (read_slot s)) as [doc|e]; [|discriminate].
    destruct (parseStatement doc (log ++ [EvGetDocument (read_slot s)]))
      as [log1 [data|e]] eqn:Hd; [|discriminate].
    intros H. apply IH in H. subst log'.
    unfold parseStatement in Hd.
    apply parse_pages_inv in Hd as (rs & _ & _ & ->).
    rewrite <- !app_assoc. reflexivity.
Qed.

(** X16: in a successful run the payloads are processed one after the
    other in input order: the calls to the engine are, for each payload in
    turn, its decoding followed by the calls for the pages 1 .. N-1 of its
    document. *)
Theorem X16_payloads_in_input_order src log log' res :
  parse src log = (log', Ok res) ->
  exists statements,
    validateInput src = Ok statements
    /\ log' = log ++ flat_map document_events statements.
Proof.
  unfold parse. unfold bind at 1, lift.
  destruct (validateInput src) as [statements|e] eqn:Hv; [|discriminate].
  unfold bind, ret.
  destruct (parse_statements statements [] log) as [log1 [results|e]] eqn:Hp;
    [|discriminate].
  intros [= <- _]. exists statements. split; [reflexivity|].
  exact (parse_statements_events _ _ _ _ _ Hp).
Qed.

(** X17: when decoding or parsing the document of a payload fails, after
    the payloads before it were processed, [parse] fails with that error:
    no record is returned, and no later payload is decoded (the log of
    calls ends with the failing document). *)
Theorem X17_document_failure_is_fatal src pre s post log log1 r1 log2 e :
  validateInput src = Ok (pre ++ s :: post) ->
  parse_statements pre [] log = (log1, Ok r1) ->
  process_statement s log1 = (log2, Throw e) ->
  parse src log = (log2, Throw e).
Proof.
  intros Hv Hpre Hs. unfold parse. unfold bind at 1, lift. rewrite Hv.
  unfold bind. rewrite parse_statements_app, Hpre, parse_statements_cons, Hs.
  reflexivity.
Qed.

(** X18: every record that [parse] returns has a Date that [Date.parse]
    accepts, so the comparator of the final sort is a number on every two
    of them: the difference of their time values. *)
Theorem X18_returned_dates_parse src log log' res :
  parse src log = (log', Ok res) ->
  Forall date_parses res
  /\ (forall a b, In a res -> In b res ->
                  comparator a b = Num (time_value a - time_value b)).
Proof.
  intros H.
  assert (Hok : Forall date_parses res).
  { apply (parse_Forall Date_parse getDocument date_parses src log log' res);
      [apply processPageContent_dates | exact H]. }
  split; [exact Hok|].
  rewrite List.Forall_forall in Hok. intros a b Ha Hb.
  specialize (Hok a Ha) as Hda. specialize (Hok b Hb) as Hdb.
  unfold date_parses, time_value, comparator, parsed_date in *.
  destruct (Date_parse_js Date_parse (Date a)); [discriminate|].
  destruct (Date_parse_js Date_parse (Date b)); [discriminate|].
  reflexivity.
Qed.

(** X19: passing a single byte buffer is the same as passing an array with
    this buffer as its only element; and an empty array gives the empty
    list without any call to the engine. *)
Theorem X19_single_buffer_and_empty_array :
  (forall data log,
      parse (Uint8Array data) log
      = parse (JsArray [Some (Uint8Array data)]) log)
  /\ (forall log, parse (JsArray []) log = (log, Ok [])).
Proof. split; reflexivity. Qed.

End StatementLoop.

(** ** The final sort *)

Section SortOrder.

Variable Date_parse : string -> jsnum.

Local Abbreviation comparator := (comparator Date_parse).
Local Abbreviation date_parses := (date_parses Date_parse).
Local Abbreviation time_value := (time_value Date_parse).

(** Two lists with the same records, both in ascending order of pairwise
    different keys, are the same list. *)
Lemma sorted_distinct_unique (key : Transaction -> Z) (l : list Transaction) :
  forall l',
    StronglySorted (fun a b => (key a <= key b)%Z) l ->
    StronglySorted (fun a b => (key a <= key b)%Z) l' ->
    NoDup (map key l) -> Permutation l l' -> l = l'.
Proof.
  induction l as [|a t IH]; intros l' Hs Hs' Hnd Hp.
  - apply Permutation_nil in Hp. congruence.
  - destruct l' as [|b t'];
      [apply Permutation_sym, Permutation_nil in Hp; discriminate|].
    inversion Hs as [|? ? Hst Ha]; subst.
    inversion Hs' as [|? ? Hst' Hb]; subst.
    simpl in Hnd. inversion Hnd as [|? ? Hnotin Hnd']; subst.
    assert (Hab : a = b).
    { assert (Hina : In a (b :: t'))
        by (apply (Permutation_in a Hp); left; reflexivity).
      destruct Hina as [->|Hina]; [reflexivity|].
      assert (Hinb : In b (a :: t))
        by (apply (Permutation_in b (Permutation_sym Hp)); left; reflexivity).
      destruct Hinb as [->|Hinb]; [reflexivity|].
      rewrite List.Forall_forall in Ha, Hb.
      specialize (Ha b Hinb). specialize (Hb a Hina).
      exfalso. apply Hnotin. apply list_elem_of_In.
      replace (key a) with (key b) by lia.
      apply in_map. exact Hinb. }
    subst b. f_equal.
    apply IH; auto. exact (Permutation_cons_inv Hp).
Qed.

(** X20: when the dates of the records parse to pairwise different time
    values, the sorted list does not depend on the order in which the
    records were collected. *)
Theorem X20_sort_independent_of_input_order (l l' : list Transaction) :
  Forall date_parses l ->
  NoDup (map time_value l) ->
  Permutation l l' ->
  Array_sort comparator l = Array_sort comparator l'.
Proof.
  intros Hok Hnd Hp.
  assert (Hok' : Forall date_parses l') by (rewrite <- Hp; exact Hok).
  pose proof (comparator_time_value Date_parse) as Hcmp.
  apply (sorted_distinct_unique time_value).
  - apply Sorted_StronglySorted; [intros x y z; simpl; lia|].
    apply (Array_sort_Sorted comparator date_parses time_value Hcmp l Hok).
  - apply Sorted_StronglySorted; [intros x y z; simpl; lia|].
    apply (Array_sort_Sorted comparator date_parses time_value Hcmp l' Hok').
  - assert (Hmp : Permutation (map time_value (Array_sort comparator l))
                    (map time_value l))
      by apply Permutation_map, Array_sort_Permutation.
    rewrite Hmp. exact Hnd.
  - rewrite !Array_sort_Permutation. exact Hp.
Qed.

End SortOrder.

(** ** The further properties on the sample pages and files *)

Lemma X6_witness :
  StronglySorted Z.gt (page_row_keys coffee_store_page)
  /\ combine (page_row_keys coffee_store_page) (page_rows coffee_store_page)
     = rev (group_items (items coffee_store_page)).
Proof.
  apply (X6_rows_in_descending_key_order coffee_store_page).
  repeat (constructor; [intros _; reflexivity|]). constructor.
Defined.

Lemma X7_witness :
  Forall (fun r : Row => StronglySorted Z.lt (Object_keys r))
    (page_rows coffee_store_page).
Proof.
  apply (X7_cells_in_ascending_bucket_order coffee_store_page).
  repeat (constructor; [intros _; reflexivity|]). constructor.
Defined.


Lemma X16_witness :
  exists statements,
    validateInput (JsArray [Some first_file; Some second_file]) = Ok statements
    /\ [EvGetDocument first_file; EvGetPage 1; EvGetTextContent 1;
        EvGetPage 2; EvGetTextContent 2;
        EvGetDocument second_file; EvGetPage 1; EvGetTextContent 1;
        EvGetPage 2; EvGetTextContent 2]
       = [] ++ flat_map (document_events sample_getDocument) statements.
Proof.
  apply (X16_payloads_in_input_order Date_parse_mdy sample_getDocument
           (JsArray [Some first_file; Some second_file]) [] _
           [january_2_transaction; january_5_transaction]).
  reflexivity.
Defined.

Lemma X17_witness :
  parse Date_parse_mdy sample_getDocument
    (JsArray [Some first_file; Some (Uint8Array [Byte.x03]); Some second_file]) []
  = ([EvGetDocument first_file; EvGetPage 1; EvGetTextContent 1;
      EvGetPage 2; EvGetTextContent 2; EvGetDocument (Uint8Array [Byte.x03])],
     Throw (Error "Invalid PDF structure.")).
Proof.
  apply (X17_document_failure_is_fatal Date_parse_mdy sample_getDocument
           (JsArray [Some first_file; Some (Uint8Array [Byte.x03]); Some second_file])
           [Some first_file] (Some (Uint8Array [Byte.x03])) [Some second_file] []
           [EvGetDocument first_file; EvGetPage 1; EvGetTextContent 1;
            EvGetPage 2; EvGetTextContent 2]
           [january_5_transaction]); reflexivity.
Defined.

Lemma X18_witness :
  Forall (date_parses Date_parse_mdy)
    [january_2_transaction; january_5_transaction]
  /\ (forall a b,
        In a [january_2_transaction; january_5_transaction] ->
        In b [january_2_transaction; january_5_transaction] ->
        comparator Date_parse_mdy a b
        = Num (time_value Date_parse_mdy a - time_value Date_parse_mdy b)).
Proof.
  apply (X18_returned_dates_parse Date_parse_mdy sample_getDocument
           (JsArray [Some first_file; Some second_file]) []
           [EvGetDocument first_file; EvGetPage 1; EvGetTextContent 1;
            EvGetPage 2; EvGetTextContent 2;
            EvGetDocument second_file; EvGetPage 1; EvGetTextContent 1;
            EvGetPage 2; EvGetTextContent 2]
           [january_2_transaction; january_5_transaction]).
  reflexivity.
Defined.

Lemma X20_witness :
  Array_sort (comparator Date_parse_mdy)
    [january_5_transaction; january_2_transaction]
  = Array_sort (comparator Date_parse_mdy)
      [january_2_transaction; january_5_transaction].
Proof.
  apply (X20_sort_independent_of_input_order Date_parse_mdy
           [january_5_transaction; january_2_transaction]
           [january_2_transaction; january_5_transaction]).
  - repeat constructor.
  - vm_compute. repeat constructor; simpl; intros H;
      repeat (apply elem_of_cons in H as [H|H]; [discriminate H|]);
      apply elem_of_nil in H; exact H.
  - apply perm_swap.
Defined.

(** ** The grouping does not depend on the order of the items *)

Section ObjectExtensionality.
Context {V : Type}.
Implicit Types (o : jsobj V) (k : Z) (v : V).

Lemma obj_get_Some_keys k v o : obj_get o k = Some v -> In k (Object_keys o).
Proof.
  unfold Object_keys. induction o as [|[k0 v0] o IH]; simpl; [discriminate|].
  destruct (k0 =? k)%Z eqn:E; [apply Z.eqb_eq in E; auto | auto].
Qed.

Lemma obj_get_not_in_keys k o : ~ In k (Object_keys o) -> obj_get o k = None.
Proof.
  intros Hn. destruct (obj_get o k) eqn:E; [|reflexivity].
  apply obj_get_Some_keys in E. contradiction.
Qed.

(** Two objects whose keys are in ascending order and that hold the same
    value under every key are the same object. *)
Lemma sorted_obj_ext o1 :
  forall o2,
    StronglySorted Z.lt (Object_keys o1) ->
    StronglySorted Z.lt (Object_keys o2) ->
    (forall k, obj_get o1 k = obj_get o2 k) -> o1 = o2.
Proof.
  induction o1 as [|[k1 v1] t1 IH]; intros [|[k2 v2] t2] Hs1 Hs2 H.
  - reflexivity.
  - specialize (H k2). simpl in H. rewrite Z.eqb_refl in H. discriminate.
  - specialize (H k1). simpl in H. rewrite Z.eqb_refl in H. discriminate.
  - unfold Object_keys in Hs1, Hs2. simpl in Hs1, Hs2.
    inversion Hs1 as [|? ? Hs1' Hlt1]; subst.
    inversion Hs2 as [|? ? Hs2' Hlt2]; subst.
    rewrite List.Forall_forall in Hlt1, Hlt2.
    assert (Hk : k1 = k2).
    { pose proof (H k1) as Ha. pose proof (H k2) as Hb. simpl in Ha, Hb.
      rewrite Z.eqb_refl in Ha, Hb.
      destruct (k2 =? k1)%Z eqn:E; [apply Z.eqb_eq in E; auto|].
      destruct (k1 =? k2)%Z eqn:E'; [apply Z.eqb_eq in E'; auto|].
      symmetry in Ha. apply obj_get_Some_keys, Hlt2 in Ha.
      apply obj_get_Some_keys, Hlt1 in Hb. lia. }
    subst k2.
    pose proof (H k1) as Hv. simpl in Hv. rewrite Z.eqb_refl in Hv.
    injection Hv as <-. f_equal.
    apply IH; [exact Hs1' | exact Hs2' |].
    intros k. destruct (Z.eq_dec k k1) as [->|Hne].
    + rewrite !obj_get_not_in_keys; [reflexivity | |];
        intros Hin; [apply Hlt2 in Hin | apply Hlt1 in Hin]; lia.
    + specialize (H k). simpl in H.
      destruct (k1 =? k)%Z eqn:E; [apply Z.eqb_eq in E; congruence | exact H].
Qed.

End ObjectExtensionality.

Lemma index_sorted_strongly {V} (o : jsobj V) :
  index_sorted o -> StronglySorted Z.lt (Object_keys o).
Proof.
  intros [_ Hs]. apply Sorted_StronglySorted; [intros x y z; lia | exact Hs].
Qed.

(** A row of one grouping is a row of another grouping with the same
    cells. *)
Lemma row_of_cells (o1 o2 : jsobj Row) y r1 :
  all_values (fun r : Row => index_sorted r) o1 ->
  all_values (fun r : Row => index_sorted r) o2 ->
  all_values (fun r : Row => r <> []) o1 ->
  (forall x, cell o1 y x = cell o2 y x) ->
  obj_get o1 y = Some r1 -> obj_get o2 y = Some r1.
Proof.
  intros Hs1 Hs2 Hn1 Hc Hr1.
  pose proof (all_values_get _ _ _ _ Hn1 Hr1) as Hne.
  pose proof (all_values_get _ _ _ _ Hs1 Hr1) as Hsr1.
  destruct r1 as [|[x0 s0] t]; [congruence|].
  pose proof (Hc x0) as Hx0. unfold cell in Hx0. rewrite Hr1 in Hx0.
  simpl in Hx0. rewrite Z.eqb_refl in Hx0.
  destruct (obj_get o2 y) as [r2|] eqn:Hr2; [|discriminate].
  f_equal. symmetry.
  apply sorted_obj_ext.
  - exact (index_sorted_strongly _ Hsr1).
  - exact (index_sorted_strongly _ (all_values_get _ _ _ _ Hs2 Hr2)).
  - intros x. specialize (Hc x). unfold cell in Hc.
    rewrite Hr1, Hr2 in Hc. exact Hc.
Qed.

Lemma grouping_ext (o1 o2 : jsobj Row) :
  index_sorted o1 -> index_sorted o2 ->
  all_values (fun r : Row => index_sorted r) o1 ->
  all_values (fun r : Row => index_sorted r) o2 ->
  all_values (fun r : Row => r <> []) o1 ->
  all_values (fun r : Row => r <> []) o2 ->
  (forall y x, cell o1 y x = cell o2 y x) -> o1 = o2.
Proof.
  intros Ho1 Ho2 Hs1 Hs2 Hn1 Hn2 Hc.
  apply sorted_obj_ext; auto using index_sorted_strongly.
  intros y. destruct (obj_get o1 y) as [r1|] eqn:E1.
  - symmetry. apply (row_of_cells o1 o2 y r1); auto.
  - destruct (obj_get o2 y) as [r2|] eqn:E2; [|reflexivity].
    apply (row_of_cells o2 o1 y r2) in E2; auto; congruence.
Qed.

Lemma last_text_Some its y x s :
  last_text its y x = Some s ->
  exists item,
    In item its /\ nonblank item = true
    /\ item_y item = y /\ item_x item = x /\ trim (str item) = s.
Proof.
  induction its as [|a t IH]; simpl; [discriminate|].
  destruct (last_text t y x) as [s'|] eqn:E.
  - intros [= <-]. destruct (IH eq_refl) as (item & Hin & H). eauto.
  - destruct (nonblank a) eqn:Hnb; simpl; [|discriminate].
    destruct (item_y a =? y)%Z eqn:Ey; simpl; [|discriminate].
    destruct (item_x a =? x)%Z eqn:Ex; simpl; [|discriminate].
    apply Z.eqb_eq in Ey, Ex. intros [= <-]. exists a. auto 10.
Qed.

Lemma last_text_is_Some its item :
  In item its -> nonblank item = true ->
  exists s, last_text its (item_y item) (item_x item) = Some s.
Proof.
  induction its as [|a t IH]; simpl; [tauto|].
  intros [->|Hin] Hnb.
  - destruct (last_text t _ _); [eauto|].
    rewrite Hnb, !Z.eqb_refl. simpl. eauto.
  - destruct (IH Hin Hnb) as [s ->]. eauto.
Qed.

Lemma last_text_Permutation its its' y x :
  Permutation its its' -> same_text_on_collision its ->
  last_text its y x = last_text its' y x.
Proof.
  intros Hp Hcol.
  assert (Hone : forall l, Permutation its l -> forall s,
             last_text its y x = Some s -> last_text l y x = Some s).
  { intros l Hl s Hs.
    apply last_text_Some in Hs as (item & Hin & Hnb & <- & <- & <-).
    destruct (last_text_is_Some l item (Permutation_in _ Hl Hin) Hnb) as [s' Hs'].
    rewrite Hs'. f_equal.
    apply last_text_Some in Hs' as (item' & Hin' & Hnb' & Hy & Hx & <-).
    apply Hcol; auto.
    exact (Permutation_in _ (Permutation_sym Hl) Hin'). }
  destruct (last_text its y x) as [s|] eqn:E.
  - symmetry. apply Hone; [exact Hp | reflexivity].
  - destruct (last_text its' y x) as [s'|] eqn:E'; [|reflexivity].
    apply last_text_Some in E' as (item & Hin & Hnb & <- & <- & <-).
    apply (Permutation_in _ (Permutation_sym Hp)) in Hin.
    destruct (last_text_is_Some its item Hin Hnb) as [s Hs]. congruence.
Qed.

Lemma in_index_range_y its :
  in_index_range its ->
  Forall (fun item => nonblank item = true ->
                      is_array_index (item_y item) = true) its.
Proof. apply List.Forall_impl. intros a H Hnb. apply H, Hnb. Qed.

Lemma in_index_range_x its :
  in_index_range its ->
  Forall (fun item => nonblank item = true ->
                      is_array_index (item_x item) = true) its.
Proof. apply List.Forall_impl. intros a H Hnb. apply H, Hnb. Qed.

(** X21: the rows of a page, and so the records that the page parser
    returns, do not depend on the order of the text items, provided the
    coordinates of the non-blank items round to array indices and items
    that fall in the same cell carry the same text. *)
Theorem X21_item_order_irrelevant Date_parse (c c' : Content) pageNum :
  Permutation (items c) (items c') ->
  in_index_range (items c) ->
  same_text_on_collision (items c) ->
  page_rows c = page_rows c'
  /\ processPageContent Date_parse c pageNum
     = processPageContent Date_parse c' pageNum.
Proof.
  intros Hp Hr Hcol.
  assert (Hr' : in_index_range (items c')).
  { unfold in_index_range. rewrite <- Hp. exact Hr. }
  assert (Hg : group_items (items c) = group_items (items c')).
  { apply grouping_ext;
      auto using group_items_index_sorted, group_items_cells_sorted,
        group_items_rows_not_nil, in_index_range_y, in_index_range_x.
    intros y x. rewrite !cell_group_items.
    apply last_text_Permutation; assumption. }
  assert (Hrows : page_rows c = page_rows c')
    by (unfold page_rows; rewrite Hg; reflexivity).
  split; [exact Hrows|].
  unfold processPageContent. rewrite Hrows. reflexivity.
Qed.

Lemma blocks_reversed_Permutation {A} (a b c d : list A) :
  Permutation (a ++ b ++ c ++ d) (d ++ c ++ b ++ a).
Proof.
  etransitivity; [apply Permutation_app_comm|].
  replace (d ++ c ++ b ++ a) with ((d ++ c ++ b) ++ a)
    by (rewrite <- !app_assoc; reflexivity).
  apply Permutation_app_tail.
  etransitivity; [apply Permutation_app_comm|].
  rewrite (app_assoc d c b). apply Permutation_app_tail.
  apply Permutation_app_comm.
Qed.

Lemma X21_witness :
  page_rows coffee_page = page_rows shuffled_coffee_page
  /\ processPageContent Date_parse_mdy coffee_page 2
     = processPageContent Date_parse_mdy shuffled_coffee_page 2.
Proof.
  apply (X21_item_order_irrelevant Date_parse_mdy coffee_page
           shuffled_coffee_page 2).
  - unfold coffee_page, shuffled_coffee_page. cbn [items].
    apply blocks_reversed_Permutation.
  - repeat (constructor; [intros _; split; reflexivity|]). constructor.
  - intros a b Ha Hb _ _ Hy Hx. simpl in Ha, Hb.
    repeat (destruct Ha as [<-|Ha]); try contradiction;
      repeat (destruct Hb as [<-|Hb]); try contradiction;
      first [ vm_compute in Hy; discriminate Hy
            | vm_compute in Hx; discriminate Hx
            | reflexivity ].
Defined.

(** ** One row for each row key *)

Section ObjectKeys.
Context {V : Type}.
Implicit Types (o : jsobj V) (k : Z) (v : V).

Lemma keys_add_index_In k k' v o :
  In k' (Object_keys (obj_add_index k v o)) <-> k' = k \/ In k' (Object_keys o).
Proof.
  unfold Object_keys. induction o as [|[k0 v0] o IH]; simpl.
  - intuition.
  - destruct (is_array_index k0 && (k0 <? k)%Z); simpl; [|intuition].
    rewrite IH. intuition.
Qed.

Lemma keys_set_In k k' v o :
  In k' (Object_keys (obj_set k v o)) <-> k' = k \/ In k' (Object_keys o).
Proof.
  unfold obj_set. destruct (obj_get o k) eqn:E.
  - rewrite Object_keys_update. apply obj_get_Some_keys in E.
    split; [auto | intros [->|H]; assumption].
  - destruct (is_array_index k); [apply keys_add_index_In|].
    unfold Object_keys. rewrite map_app, in_app_iff. simpl. intuition.
Qed.

Lemma keys_add_index_NoDup k v o :
  ~ In k (Object_keys o) -> List.NoDup (Object_keys o) ->
  List.NoDup (Object_keys (obj_add_index k v o)).
Proof.
  induction o as [|[k0 v0] o IH]; intros Hn Hnd.
  - simpl. constructor; [exact Hn | constructor].
  - change (Object_keys ((k0, v0) :: o)) with (k0 :: Object_keys o) in *.
    apply List.NoDup_cons_iff in Hnd as [Hk0 Hnd]. simpl.
    destruct (is_array_index k0 && (k0 <? k)%Z).
    + change (List.NoDup (k0 :: Object_keys (obj_add_index k v o))).
      constructor.
      * rewrite keys_add_index_In. simpl in Hn. intuition.
      * apply IH; [simpl in Hn; intuition | exact Hnd].
    + change (List.NoDup (k :: k0 :: Object_keys o)).
      constructor; [exact Hn|]. constructor; assumption.
Qed.

(** Assignment never makes a key appear twice. *)
Lemma keys_set_NoDup k v o :
  List.NoDup (Object_keys o) -> List.NoDup (Object_keys (obj_set k v o)).
Proof.
  intros Hnd. unfold obj_set. destruct (obj_get o k) eqn:E.
  - rewrite Object_keys_update. exact Hnd.
  - apply obj_get_None_keys in E. destruct (is_array_index k).
    + apply keys_add_index_NoDup; assumption.
    + unfold Object_keys in *. rewrite map_app. simpl.
      replace (map fst o ++ [k]) with (rev (k :: rev (map fst o)))
        by (simpl; rewrite rev_involutive; reflexivity).
      apply List.NoDup_rev. constructor.
      * rewrite <- in_rev. exact E.
      * apply List.NoDup_rev. exact Hnd.
Qed.

End ObjectKeys.

Lemma group_item_keys o item y :
  In y (Object_keys (group_item o item))
  <-> In y (Object_keys o) \/ (nonblank item = true /\ item_y item = y).
Proof.
  destruct (nonblank item) eqn:Hnb.
  - rewrite group_item_nonblank by exact Hnb. rewrite keys_set_In.
    intuition.
  - rewrite group_item_blank by exact Hnb. intuition. discriminate.
Qed.

Lemma fold_group_item_keys its :
  forall o y,
    In y (Object_keys (fold_left group_item its o))
    <-> In y (Object_keys o)
        \/ exists item, In item its /\ nonblank item = true /\ item_y item = y.
Proof.
  induction its as [|a t IH]; intros o y; simpl.
  - split; [auto | intros [H|(item & [] & _)]; exact H].
  - rewrite IH, group_item_keys. split.
    + intros [[H|[Hnb Hy]]|(item & Hin & Hnb & Hy)].
      * left. exact H.
      * right. exists a. auto.
      * right. exists item. auto.
    + intros [H|(item & [->|Hin] & Hnb & Hy)].
      * left. left. exact H.
      * left. right. auto.
      * right. exists item. auto.
Qed.

Lemma fold_group_item_NoDup its :
  forall o,
    List.NoDup (Object_keys o) ->
    List.NoDup (Object_keys (fold_left group_item its o)).
Proof.
  induction its as [|a t IH]; intros o Hnd; simpl; [exact Hnd|].
  apply IH. destruct (nonblank a) eqn:Hnb.
  - rewrite group_item_nonblank by exact Hnb. apply keys_set_NoDup, Hnd.
  - rewrite group_item_blank by exact Hnb. exact Hnd.
Qed.

(** X22: a page has one row for each row key of its non-blank items: the
    row keys of the rows are pairwise different, they are exactly the row
    keys of the non-blank items, and there are as many rows as keys. *)
Theorem X22_one_row_per_row_key (content : Content) :
  List.NoDup (page_row_keys content)
  /\ (forall y,
        In y (page_row_keys content)
        <-> exists item,
              In item (items content) /\ nonblank item = true
              /\ item_y item = y)
  /\ length (page_rows content) = length (page_row_keys content).
Proof.
  unfold page_row_keys, page_rows. rewrite !reverse_rev.
  split; [|split].
  - apply List.NoDup_rev. unfold group_items.
    apply fold_group_item_NoDup. constructor.
  - intros y. rewrite <- in_rev. unfold group_items.
    rewrite fold_group_item_keys. simpl. intuition.
  - rewrite !length_rev. unfold Object_values, Object_keys.
    rewrite !length_map. reflexivity.
Qed.
